(** * Omnichannel routing and closure engine (Livechat service)

    A shallow embedding of [LivechatClass] (availability resolution, tag
    policy resolution, room closure and transcript generation) together
    with the properties of its specification.

    Conventions of the embedding:
    - an optional JavaScript value ([x?: T], or a lookup that may yield
      [null]) is an [option];
    - a [Date] is its [getTime()] value, a [Z] number of milliseconds;
    - JavaScript truthiness is written out ([truthyString], [truthyBool],
      [truthyNumber]);
    - [async] methods are run to completion in program order; the three
      writes of [Promise.all] hit three different stores and are sequenced
      in the order they are listed; what is handed to [process.nextTick]
      runs once the method has reached its end;
    - a duration in seconds is kept as the quotient of two integers, of
      which the code stores the nearest double: nothing is stated about
      its value beyond its being zero or not;
    - [logger.debug] calls are left out, except that evaluating their
      template argument can raise. *)

From Stdlib Require Import ZArith QArith.
From stdpp Require Import base strings gmap list sorting.

Local Open Scope string_scope.

(** ** JavaScript helpers *)

(** [!!s] for a string: the empty string is falsy. *)
Definition truthyString (s : string) : bool :=
  match s with
  | EmptyString => false
  | String _ _ => true
  end.

(** [!!o] for [o?: string]. *)
Definition truthyOptString (o : option string) : bool :=
  match o with
  | Some s => truthyString s
  | None => false
  end.

(** [!!o] for [o?: boolean]. *)
Definition truthyBool (o : option bool) : bool :=
  match o with
  | Some b => b
  | None => false
  end.

(** [!!q] for a finite number: zero is falsy. *)
Definition truthyNumber (q : Q) : bool :=
  negb (Z.eqb (Qnum q) 0).

(** [new Set(l)] followed by spreading it back into an array: elements in
    order of first insertion. [seen] is the content of the set so far. *)
Fixpoint setAddAll (seen l : list string) : list string :=
  match l with
  | [] => seen
  | x :: l' =>
      if decide (x ∈ seen) then setAddAll seen l'
      else setAddAll (seen ++ [x]) l'
  end.

(** [concatUnique(...arrays)]: drop the absent arrays, concatenate the
    others and deduplicate through a [Set]. *)
Definition concatUnique (arrays : list (option (list string))) : list string :=
  setAddAll [] (concat (omap id arrays)).

(** ** Data model *)

Record Department := mkDepartment {
  dept_id : string;
  fallbackForwardDepartment : option string;
  requestTagBeforeClosingChat : option bool;
  chatClosingTags : option (list string)
}.

Record SelectedAgent := mkSelectedAgent {
  agentId : string
}.

(** The part of the stores read by the availability resolver. *)
Record Directory := mkDirectory {
  departments : gmap string Department;
  (** number of online agents per department *)
  departmentOnline : gmap string nat;
  (** ids of the agents that are online system-wide *)
  onlineAgents : list string
}.

(** [LivechatDepartment.findOneById]. *)
Definition findDepartmentById (dir : Directory) (id : string) : option Department :=
  departments dir !! id.

(** Modelled from the spec: [LivechatDepartmentAgents.checkOnlineForDepartment]
    is not part of the sources; it is the "online-agent-count for that
    department" query, true when the count is nonzero. *)
Definition checkOnlineForDepartment (dir : Directory) (department : string) : bool :=
  bool_decide (0 < default 0 (departmentOnline dir !! department)).

(** Modelled from the spec: [Users.checkOnlineAgents(agentId?)] is not part
    of the sources; with an agent id it is "that specific agent's online
    status", without one "whether any agent system-wide is online". *)
Definition Users_checkOnlineAgents (dir : Directory) (agent : option string) : bool :=
  match agent with
  | Some a => bool_decide (a ∈ onlineAgents dir)
  | None => bool_decide (onlineAgents dir ≠ [])
  end.

(** ** Availability resolver *)

(** [agent?.agentId] as a condition. *)
Definition forcedAgent (agent : option SelectedAgent) : option string :=
  match agent with
  | Some a => if truthyString (agentId a) then Some (agentId a) else None
  | None => None
  end.

(** [checkOnlineAgents(department?, agent?, skipFallbackCheck = false)].
    The method calls itself on the fallback department without any bound;
    [fuel] bounds the number of nested calls and [None] means that the
    bound was reached before a call returned. *)
Fixpoint checkOnlineAgents (fuel : nat) (dir : Directory)
    (department : option string) (agent : option SelectedAgent)
    (skipFallbackCheck : bool) : option bool :=
  match fuel with
  | O => None
  | S fuel' =>
      match forcedAgent agent with
      | Some a => Some (Users_checkOnlineAgents dir (Some a))
      | None =>
          match department with
          | Some d =>
              if truthyString d then
                let onlineForDep := checkOnlineForDepartment dir d in
                if onlineForDep || skipFallbackCheck then Some onlineForDep
                else
                  match findDepartmentById dir d with
                  | Some dep =>
                      match fallbackForwardDepartment dep with
                      | Some f =>
                          if truthyString f
                          then checkOnlineAgents fuel' dir (Some f) None false
                          else Some onlineForDep
                      | None => Some onlineForDep
                      end
                  | None => Some onlineForDep
                  end
              else Some (Users_checkOnlineAgents dir None)
          | None => Some (Users_checkOnlineAgents dir None)
          end
      end
  end.

(** The department the resolver moves to from [d] when [d] has no online
    agent: the truthy [fallbackForwardDepartment] of the stored record. *)
Definition fallbackOf (dir : Directory) (d : string) : option string :=
  match findDepartmentById dir d with
  | Some dep =>
      match fallbackForwardDepartment dep with
      | Some f => if truthyString f then Some f else None
      | None => None
      end
  | None => None
  end.

(** The department reached from [d] after [n] fallback hops, if any. *)
Fixpoint hops (dir : Directory) (n : nat) (d : string) : option string :=
  match n with
  | O => Some d
  | S n' =>
      match fallbackOf dir d with
      | Some f => hops dir n' f
      | None => None
      end
  end.

(** [d] lies on a fallback cycle: following the references from [d] comes
    back to [d]. *)
Definition onCycle (dir : Directory) (d : string) : Prop :=
  ∃ n, 0 < n ∧ hops dir n d = Some d.

(** A fallback chain without a cycle: the departments visited from [d]
    until one has no fallback. *)
Inductive Chain (dir : Directory) : string → list string → Prop :=
  | Chain_last d :
      fallbackOf dir d = None → Chain dir d [d]
  | Chain_hop d f l :
      fallbackOf dir d = Some f → Chain dir f l → Chain dir d (d :: l).

(** ** Rooms, closers and messages *)

Record TranscriptRequest := mkTranscriptRequest {
  tr_email : string;
  tr_subject : option string;
  tr_requestedBy : string
}.

(** [options.emailTranscript]: a union tagged by [sendToVisitor]. *)
Inductive EmailTranscript :=
  | SendToVisitorFalse
  | SendToVisitorTrue (requestData : TranscriptRequest).

Record PdfTranscript := mkPdfTranscript {
  requestedBy : string
}.

(** [CloseRoomParams['options']]; every field is optional. *)
Record CloseOptions := mkCloseOptions {
  clientAction : option bool;
  tags : option (list string);
  emailTranscript : option EmailTranscript;
  pdfTranscript : option PdfTranscript
}.

(** The default [options = {}]. *)
Definition noOptions : CloseOptions :=
  mkCloseOptions None None None None.

(** [{ _id, username, name }], the identity kept in [closedBy] and in the
    author field [u] of a message. *)
Record Identity := mkIdentity {
  ident_id : string;
  ident_username : option string;
  ident_name : option string
}.

Record User := mkUser {
  user_id : string;
  user_username : option string;
  user_name : option string
}.

Record Visitor := mkVisitor {
  visitor_id : string;
  visitor_token : string;
  visitor_username : option string;
  visitor_name : option string;
  visitor_language : option string
}.

Record ServedBy := mkServedBy {
  servedBy_id : string;
  servedBy_ts : Z
}.

(** [room.v], the visitor of an omnichannel room. *)
Record RoomVisitor := mkRoomVisitor {
  v_id : string;
  v_token : string
}.

(** [IOmnichannelRoomClosingInfo] extended with the fields spread from the
    resolved options. *)
Record ClosingInfo := mkClosingInfo {
  closedAt : Z;
  chatDuration : Q;
  serviceTimeDuration : option Q;
  closeOptions : CloseOptions;
  closer : option string;
  closedBy : option Identity
}.

Record Room := mkRoom {
  room_id : string;
  room_t : string;
  room_open : option bool;
  room_ts : Z;
  room_servedBy : option ServedBy;
  room_departmentId : option string;
  room_tags : option (list string);
  room_transcriptRequest : option TranscriptRequest;
  room_v : option RoomVisitor;
  (** closure metadata, written by [closeRoomById] *)
  room_closing : option ClosingInfo
}.

(** [requestData] of the transcript audit message. *)
Record RequestData := mkRequestData {
  rd_type : string;
  rd_visitor : Visitor;
  rd_user : option User
}.

Record Message := mkMessage {
  m_rid : string;
  m_t : option string;
  m_ts : Z;
  m_msg : option string;
  m_u : Identity;
  m_groupable : option bool;
  m_transcriptRequested : option bool;
  m_requestData : option RequestData
}.

Record Email := mkEmail {
  mail_to : string;
  mail_from : string;
  mail_replyTo : string;
  mail_subject : string;
  mail_html : string
}.

(** ** The world of external collaborators *)

(** Every call that leaves the service with an effect: store writes,
    message insertions, outbound mail, bridge events and callback chains.
    The bridge events that [closeRoom] hands to [process.nextTick] are
    recorded where they run, after the synchronous rest of the method; the
    callback chain that [sendTranscript] hands to [Meteor.defer] is recorded
    when it is scheduled. *)
Inductive Call :=
  | LivechatRooms_closeRoomById (rid : string) (closeData : ClosingInfo)
  | LivechatInquiry_removeByRoomId (rid : string)
  | Subscriptions_removeByRoomId (rid : string)
  | Messages_insert (m : Message)
  | Mailer_send (mail : Email)
  | Bridge_livechatEvent (event : string) (newRoom : Room)
  | Callbacks_runAsync (hook : string) (newRoom : Room) (options : CloseOptions)
  | Callbacks_run (hook : string) (messages : list Message) (email : string).

Record Settings := mkSettings {
  Language : option string;
  Livechat_show_agent_info : bool;
  From_Email : string
}.

Record World := mkWorld {
  (** the value [new Date()] yields *)
  clock : Z;
  settings : Settings;
  (** whether [Apps.getBridges()] yields the bridges *)
  bridges : bool;
  directory : Directory;
  visitors : list Visitor;
  users : gmap string User;
  rooms : gmap string Room;
  messages : list Message;
  journal : list Call
}.

Definition setRooms (w : World) (rs : gmap string Room) : World :=
  mkWorld (clock w) (settings w) (bridges w) (directory w) (visitors w)
    (users w) rs (messages w) (journal w).

Definition setMessages (w : World) (ms : list Message) : World :=
  mkWorld (clock w) (settings w) (bridges w) (directory w) (visitors w)
    (users w) (rooms w) ms (journal w).

Definition setJournal (w : World) (j : list Call) : World :=
  mkWorld (clock w) (settings w) (bridges w) (directory w) (visitors w)
    (users w) (rooms w) (messages w) j.

(** ** Exceptions and the monad of the service methods *)

Inductive Exn :=
  | Error (msg : string)
  | TypeError (msg : string).

Inductive Outcome (A : Type) :=
  | Return (a : A)
  | Throw (e : Exn).
Arguments Return {A} a.
Arguments Throw {A} e.

(** A method reads and updates the world and either returns or throws; a
    throw keeps the effects done so far (nothing is rolled back). *)
Definition M (A : Type) : Type := World → Outcome A * World.

Definition ret {A} (a : A) : M A := λ w, (Return a, w).

Definition throw {A} (e : Exn) : M A := λ w, (Throw e, w).

Definition bind {A B} (c : M A) (k : A → M B) : M B :=
  λ w, match c w with
       | (Return a, w') => k a w'
       | (Throw e, w') => (Throw e, w')
       end.

Definition gets {A} (f : World → A) : M A := λ w, (Return (f w), w).

Definition modify (f : World → World) : M unit := λ w, (Return tt, f w).

Notation "'let!' x ':=' c 'in' k" := (bind c (λ x, k))
  (at level 10, x name, c at level 100, k at level 200, only parsing).
Notation "'do!' c 'in' k" := (bind c (λ _, k))
  (at level 10, c at level 100, k at level 200, only parsing).

(** Record [c] in the journal. *)
Definition call (c : Call) : M unit :=
  modify (λ w, setJournal w (journal w ++ [c])).

(** ** Collaborators of the closure coordinator *)

(** [LivechatRooms.findOneById]. *)
Definition LivechatRooms_findOneById (rid : string) : M (option Room) :=
  gets (λ w, rooms w !! rid).

(** [LivechatDepartment.findOneById]. *)
Definition LivechatDepartment_findOneById (id : string) : M (option Department) :=
  gets (λ w, findDepartmentById (directory w) id).

(** The room after the closing write: [open] is unset, the closure
    metadata is stored and the merged tags, when there are any, replace the
    tags of the room. *)
Definition closedRoom (r : Room) (closeData : ClosingInfo) : Room :=
  mkRoom (room_id r) (room_t r) None (room_ts r) (room_servedBy r)
    (room_departmentId r)
    (match tags (closeOptions closeData) with
     | Some ts => Some ts
     | None => room_tags r
     end)
    (room_transcriptRequest r) (room_v r) (Some closeData).

(** Modelled from the spec: [LivechatRooms.closeRoomById] is not part of
    the sources; it "marks the room closed with all closure metadata", as a
    conditional write keyed on the open flag: a room that is absent or
    already closed is left as it is. *)
Definition closeWrite (rid : string) (closeData : ClosingInfo)
    (rs : gmap string Room) : gmap string Room :=
  match rs !! rid with
  | Some r =>
      if truthyBool (room_open r)
      then <[rid := closedRoom r closeData]> rs
      else rs
  | None => rs
  end.

Definition LivechatRooms_closeRoomById_write (rid : string) (closeData : ClosingInfo)
    : M unit :=
  do! call (LivechatRooms_closeRoomById rid closeData) in
  modify (λ w, setRooms w (closeWrite rid closeData (rooms w))).

(** Modelled from the spec: [sendMessage] and [Message.saveSystemMessage]
    are not part of the sources; both insert one message into the message
    store of the room, stamped with the current time. *)
Definition insertMessage (m : Message) : M unit :=
  do! call (Messages_insert m) in
  modify (λ w, setMessages w (messages w ++ [m])).

Definition sendMessage (u : Identity) (t : string) (msg : option string)
    (groupable transcriptRequested : bool) (newRoom : Room) : M unit :=
  let! now := gets clock in
  insertMessage (mkMessage (room_id newRoom) (Some t) now msg u
                   (Some groupable) (Some transcriptRequested) None).

Definition Message_saveSystemMessage (t rid msg : string) (owner : Identity)
    (extraData : option RequestData) : M unit :=
  let! now := gets clock in
  insertMessage (mkMessage rid (Some t) now (Some msg) owner None None extraData).

(** [Apps.getBridges()?.getListenerBridge().livechatEvent(event, newRoom)]. *)
Definition livechatEvent (event : string) (newRoom : Room) : M unit :=
  let! b := gets bridges in
  if b then call (Bridge_livechatEvent event newRoom) else ret tt.

(** Modelled from the spec: [isOmnichannelRoom] is imported from the typings
    package and is not part of the sources; a room is "of the omnichannel
    kind" when its type tag is the visitor-conversation tag ['l'], the tag
    [sendTranscript] tests. *)
Definition isOmnichannelRoom (room : Room) : bool :=
  bool_decide (room_t room = "l").

(** ** Tag policy resolver *)

(** The tags an optional [tags] field carries: none when it is absent. *)
Definition tagList (field : option (list string)) : list string :=
  default [] field.

(** [{ ...options, ...(ts.length && { tags: ts }) }]: spreading the number
    [0] adds nothing, so [tags] is only overwritten by a non-empty array. *)
Definition spreadTags (options : CloseOptions) (ts : list string) : CloseOptions :=
  match length ts with
  | O => options
  | S _ => mkCloseOptions (clientAction options) (Some ts)
             (emailTranscript options) (pdfTranscript options)
  end.

Definition tagsError : Exn :=
  Error "error-tags-must-be-assigned-before-closing-chat".

(** [resolveChatTags(room, options = {})]; the result is the
    [updatedOptions] field of the returned object. *)
Definition resolveChatTags (room : Room) (options : option CloseOptions)
    : M CloseOptions :=
  let options := default noOptions options in
  let departmentId := room_departmentId room in
  let optionsTags := room_tags room in
  let oldRoomTags := tags options in
  let roomTags := concatUnique [oldRoomTags; optionsTags] in
  match departmentId with
  | Some departmentId =>
      if truthyString departmentId then
        let! department := LivechatDepartment_findOneById departmentId in
        match department with
        | None => ret (spreadTags options roomTags)
        | Some department =>
            let extraRoomTags :=
              concatUnique [Some roomTags; chatClosingTags department] in
            if negb (truthyBool (requestTagBeforeClosingChat department)) then
              ret (spreadTags options extraRoomTags)
            else
              let checkRoomTags :=
                negb (truthyBool (clientAction options))
                || bool_decide (0 < length roomTags) in
              let checkDepartmentTags :=
                match chatClosingTags department with
                | Some cts => bool_decide (0 < length cts)
                | None => false
                end in
              if negb checkRoomTags || negb checkDepartmentTags then
                throw tagsError
              else ret (spreadTags options extraRoomTags)
        end
      else ret (spreadTags options roomTags)
  | None => ret (spreadTags options roomTags)
  end.

(** The merged tag list of a call: the tags of the request and of the room,
    and the closing tags of the department when the room has one that is
    found. *)
Definition mergedTags (w : World) (room : Room) (options : CloseOptions)
    : list string :=
  let roomTags := concatUnique [tags options; room_tags room] in
  match room_departmentId room with
  | Some departmentId =>
      if truthyString departmentId then
        match findDepartmentById (directory w) departmentId with
        | Some department =>
            concatUnique [Some roomTags; chatClosingTags department]
        | None => roomTags
        end
      else roomTags
  | None => roomTags
  end.

(** The policy check of the resolver as a condition on the inputs: a
    client-initiated request needs a tag on the room or in the request, and
    the department needs a closing tag. *)
Definition tagPolicyViolated (room : Room) (options : CloseOptions)
    (department : Department) : Prop :=
  (truthyBool (clientAction options) = true
   ∧ tagList (room_tags room) = [] ∧ tagList (tags options) = [])
  ∨ tagList (chatClosingTags department) = [].

(** ** Closure coordinator *)

(** [CloseRoomParams] as the method sees it at run time: the guard tests
    [!room], and the closer is found by testing [user] and then [visitor]
    against [undefined]. *)
Record CloseRoomParams := mkCloseRoomParams {
  params_room : option Room;
  params_comment : option string;
  params_options : option CloseOptions;
  params_user : option User;
  params_visitor : option Visitor
}.

Definition userIdentity (u : User) : Identity :=
  mkIdentity (user_id u) (user_username u) (user_name u).

Definition visitorIdentity (v : Visitor) : Identity :=
  mkIdentity (visitor_id v) (visitor_username v) (visitor_name v).

(** [{ _id: x._id, username: x.username }]. *)
Definition closedByOf (i : Identity) : Identity :=
  mkIdentity (ident_id i) (ident_username i) None.

(** [(now.getTime() - new Date(ts).getTime()) / 1000]: the quotient of the
    two integers. The code stores the double nearest to it, which is zero
    in the same case; only that is used below. *)
Definition secondsBetween (now ts : Z) : Q :=
  Qmake (now - ts) 1000.

(** [servedBy && (now.getTime() - new Date(servedBy.ts).getTime()) / 1000]
    followed by [...(serviceTimeDuration && { serviceTimeDuration })]: the
    field is set when [servedBy] is present and the number is truthy. *)
Definition serviceTimeDurationField (now : Z) (servedBy : option ServedBy)
    : option Q :=
  match servedBy with
  | Some s =>
      let serviceTimeDuration := secondsBetween now (servedBy_ts s) in
      if truthyNumber serviceTimeDuration then Some serviceTimeDuration else None
  | None => None
  end.

(** The initial [closeData], before the closer is recorded. *)
Definition closeDataOf (now : Z) (room : Room) (options : CloseOptions)
    : ClosingInfo :=
  mkClosingInfo now (secondsBetween now (room_ts room))
    (serviceTimeDurationField now (room_servedBy room)) options None None.

(** [closeData.closer = kind; closeData.closedBy = { _id, username }]. *)
Definition recordCloser (closeData : ClosingInfo) (kind : string) (who : Identity)
    : ClosingInfo :=
  mkClosingInfo (closedAt closeData) (chatDuration closeData)
    (serviceTimeDuration closeData) (closeOptions closeData)
    (Some kind) (Some (closedByOf who)).

Definition roomReadError : Exn :=
  TypeError "Cannot read properties of undefined (reading '_id')".

Definition closerError : Exn :=
  Error "Error: Please provide details of the user or visitor who closed the room".

Definition roomNotFoundError : Exn :=
  Error "Error: Room not found".

(** The closer of the request: the [if]/[else if]/[else] over
    [isRoomClosedByUserParams] and [isRoomClosedByVisitorParams]. The result
    is the value given to [closeData.closer] and the [chatCloser]. *)
Definition chatCloserOf (params : CloseRoomParams) : M (string * Identity) :=
  match params_user params with
  | Some user => ret ("user", userIdentity user)
  | None =>
      match params_visitor params with
      | Some visitor => ret ("visitor", visitorIdentity visitor)
      | None => throw closerError
      end
  end.

(** The part of [closeRoom] from the store update on: the three writes, the
    re-read of the room, the two system messages, the callback chain and the
    two bridge events. The events are handed to [process.nextTick], so they
    reach the bridge (and [Apps.getBridges()] is read) once the method has
    run to its end, after [callbacks.runAsync] was called. *)
Definition commitClosure (rid : string) (closeData : ClosingInfo)
    (chatCloser : Identity) (comment : option string)
    (transcriptRequest : option TranscriptRequest) (options : CloseOptions)
    : M unit :=
  do! LivechatRooms_closeRoomById_write rid closeData in
  do! call (LivechatInquiry_removeByRoomId rid) in
  do! call (Subscriptions_removeByRoomId rid) in
  let! newRoom := LivechatRooms_findOneById rid in
  match newRoom with
  | None => throw roomNotFoundError
  | Some newRoom =>
      do! sendMessage chatCloser "livechat-close" comment false
            (bool_decide (is_Some transcriptRequest)) newRoom in
      do! Message_saveSystemMessage "command" rid "promptTranscript"
            (closedByOf chatCloser) None in
      do! call (Callbacks_runAsync "livechat.closeRoom" newRoom options) in
      do! livechatEvent "ILivechatRoomClosedHandler" newRoom in
      livechatEvent "IPostLivechatRoomClosed" newRoom
  end.

(** The two system messages of a closure. *)
Definition closingMessages (w : World) (rid : string) (newRoom : Room)
    (chatCloser : Identity) (comment : option string)
    (transcriptRequest : option TranscriptRequest) : list Message :=
  [ mkMessage (room_id newRoom) (Some "livechat-close") (clock w) comment
      chatCloser (Some false) (Some (bool_decide (is_Some transcriptRequest))) None;
    mkMessage rid (Some "command") (clock w) (Some "promptTranscript")
      (closedByOf chatCloser) None None None ].

(** The bridge events of a closure, when the bridges are there. *)
Definition closingEvents (w : World) (newRoom : Room) : list Call :=
  if bridges w
  then [ Bridge_livechatEvent "ILivechatRoomClosedHandler" newRoom;
         Bridge_livechatEvent "IPostLivechatRoomClosed" newRoom ]
  else [].

Definition closeRoom (params : CloseRoomParams) : M unit :=
  let comment := params_comment params in
  (* the template of the first debug line reads [room._id] *)
  match params_room params with
  | None => throw roomReadError
  | Some room =>
      if negb (isOmnichannelRoom room) || negb (truthyBool (room_open room))
      then ret tt
      else
        let! options := resolveChatTags room (params_options params) in
        let! now := gets clock in
        let rid := room_id room in
        let transcriptRequest := room_transcriptRequest room in
        let closeData := closeDataOf now room options in
        let! chatCloser := chatCloserOf params in
        let closeData := recordCloser closeData (fst chatCloser) (snd chatCloser) in
        commitClosure rid closeData (snd chatCloser) comment transcriptRequest options
  end.

(** ** Transcript generator *)

(** The pure services the transcript relies on: localisation
    ([TAPi18n.__(key, { lng })]), date formatting
    ([moment.tz(ts, timezone).locale(lng).format('LLL')]), [getTimezone]
    and the first match of the address pattern in a sender field. *)
Record Rendering := mkRendering {
  i18n : string → string → string;
  formatDate : Z → string → string → string;
  getTimezone : option User → string;
  matchAddress : string → option string
}.

(** [a || b] for optional strings. *)
Definition orString (a b : option string) : option string :=
  if truthyOptString a then a else b.

Definition ignoredMessageTypes : list string :=
  [ "livechat_navigation_history";
    "livechat_transcript_history";
    "command";
    "livechat-close";
    "livechat-started";
    "livechat_video_call" ].

(** The stored visitor with the given token, if any. *)
Definition visitorByToken (w : World) (token : string) : option Visitor :=
  List.find (λ v, bool_decide (visitor_token v = token)) (visitors w).

(** [LivechatVisitors.getVisitorByToken]. *)
Definition LivechatVisitors_getVisitorByToken (token : string) : M (option Visitor) :=
  gets (λ w, visitorByToken w token).

(** [Users.findOneById]. *)
Definition Users_findOneById (id : string) : M (option User) :=
  gets (λ w, users w !! id).

(** Modelled from the spec: [Messages.findLivechatClosingMessage] is not
    part of the sources; it yields the closing message recorded for the
    room, if there is one. *)
Definition Messages_findLivechatClosingMessage (rid : string) : M (option Message) :=
  gets (λ w, List.find (λ m, bool_decide (m_rid m = rid ∧ m_t m = Some "livechat-close"))
               (messages w)).

(** The type of [m] is one of [types]; a message without a type is not. *)
Definition hasTypeIn (types : list string) (m : Message) : bool :=
  match m_t m with
  | Some t => bool_decide (t ∈ types)
  | None => false
  end.

(** Chronological order of messages. *)
Definition tsLe (m1 m2 : Message) : Prop := (m_ts m1 ≤ m_ts m2)%Z.

#[global] Instance tsLe_dec : RelDecision tsLe.
Proof. intros m1 m2. unfold tsLe. apply _. Defined.

#[global] Instance tsLe_total : Total tsLe.
Proof. intros m1 m2. unfold tsLe. lia. Qed.

#[global] Instance tsLe_trans : Transitive tsLe.
Proof. intros m1 m2 m3. unfold tsLe. lia. Qed.

(** Modelled from the spec: [Messages.findVisibleByRoomIdNotContainingTypesBeforeTs]
    is not part of the sources; it fetches "all messages for the room
    strictly before" the given timestamp, "excluding" the given kinds,
    "ordered chronologically ascending". *)
Definition Messages_findVisibleByRoomIdNotContainingTypesBeforeTs
    (rid : string) (types : list string) (ts : Z) : M (list Message) :=
  gets (λ w,
    merge_sort tsLe
      (filter (λ m, m_rid m = rid ∧ hasTypeIn types m = false ∧ (m_ts m < ts)%Z)
              (messages w))).

(** [closingMessage?.ts ? new Date(closingMessage.ts) : new Date()]. *)
Definition closingBound (closingMessage : option Message) (now : Z) : Z :=
  match closingMessage with
  | Some m => m_ts m
  | None => now
  end.

(** The messages the transcript is rendered from. *)
Definition transcriptMessages (rid : string) : M (list Message) :=
  let! closingMessage := Messages_findLivechatClosingMessage rid in
  let! now := gets clock in
  Messages_findVisibleByRoomIdNotContainingTypesBeforeTs rid ignoredMessageTypes
    (closingBound closingMessage now).

(** [`${x}`] for an optional string. *)
Definition interpolate (o : option string) : string :=
  default "undefined" o.

(** The line feed and the tab of the template literal. *)
Definition lineFeed : string := String (Ascii.ascii_of_nat 10) "".
Definition tabs (n : nat) : string :=
  Nat.iter n (String (Ascii.ascii_of_nat 9)) "".

(** The body of the [forEach] callback: the fragment appended for one
    message. The template literal opens with a line feed, its two lines are
    indented by four tabs and its closing back quote by three. *)
Definition singleMessage (X : Rendering) (visitor : Visitor) (showAgentInfo : bool)
    (userLanguage timezone : string) (message : Message) : string :=
  let author :=
    if bool_decide (ident_id (m_u message) = visitor_id visitor)
    then i18n X "You" userLanguage
    else if showAgentInfo
         then interpolate (orString (ident_name (m_u message))
                                    (ident_username (m_u message)))
         else i18n X "Agent" userLanguage in
  let datetime := formatDate X (m_ts message) timezone userLanguage in
  lineFeed +:+ tabs 4
  +:+ "<p><strong>" +:+ author +:+ "</strong>  <em>" +:+ datetime +:+ "</em></p>"
  +:+ lineFeed +:+ tabs 4
  +:+ "<p>" +:+ interpolate (m_msg message) +:+ "</p>"
  +:+ lineFeed +:+ tabs 3.

(** The document: the fragments of the messages, in cursor order, between
    the opening and the closing markup. *)
Definition renderTranscript (X : Rendering) (visitor : Visitor) (showAgentInfo : bool)
    (userLanguage timezone : string) (messages : list Message) : string :=
  fold_left (λ html message,
               html +:+ singleMessage X visitor showAgentInfo userLanguage timezone message)
            messages "<div> <hr>"
  +:+ "</div>".

(** [sendEmail(from, to, replyTo, subject, html)]. *)
Definition sendEmail (from to replyTo subject html : string) : M unit :=
  call (Mailer_send (mkEmail to from replyTo subject html)).

Definition invalidTokenError : Exn := Error "error-invalid-token".

Definition invalidRoomError : Exn := Error "error-invalid-room".

(** [visitor?.language || settings.get('Language') || 'en']. *)
Definition userLanguageOf (w : World) (visitor : Visitor) : string :=
  default "en" (orString (orString (visitor_language visitor) (Language (settings w)))
                         (Some "en")).

(** The room check of [sendTranscript] fails: the room is absent, is not of
    kind ['l'], has no visitor or has a visitor with another token. *)
Definition roomRejected (token : string) (room : option Room) : Prop :=
  match room with
  | None => True
  | Some room =>
      room_t room ≠ "l"
      ∨ match room_v room with
        | None => True
        | Some v => v_token v ≠ token
        end
  end.

Definition sendTranscript (X : Rendering) (token rid email : string)
    (subject : option string) (user : option User) : M bool :=
  (* [check(rid, String)] and [check(email, String)] hold by typing *)
  let! room := LivechatRooms_findOneById rid in
  let! visitor := LivechatVisitors_getVisitorByToken token in
  match visitor with
  | None => throw invalidTokenError
  | Some visitor =>
      let! userLanguage := gets (λ w, userLanguageOf w visitor) in
      let timezone := getTimezone X user in
      match room with
      | None => throw invalidRoomError
      | Some room =>
          if negb (bool_decide (room_t room = "l"))
             || match room_v room with
                | None => true
                | Some v => negb (bool_decide (v_token v = token))
                end
          then throw invalidRoomError
          else
            let! showAgentInfo := gets (λ w, Livechat_show_agent_info (settings w)) in
            let! messages := transcriptMessages rid in
            let html :=
              renderTranscript X visitor showAgentInfo userLanguage timezone messages in
            let! From_Email := gets (λ w, From_Email (settings w)) in
            let emailFromRegexp :=
              match matchAddress X From_Email with
              | Some address => address
              | None => From_Email
              end in
            let mailSubject :=
              default (i18n X "Transcript_of_your_livechat_conversation" userLanguage)
                      (orString subject None) in
            do! sendEmail emailFromRegexp email emailFromRegexp mailSubject html in
            do! call (Callbacks_run "livechat.sendTranscript" messages email) in
            let! cat :=
              match user with
              | Some u =>
                  if truthyOptString (user_username u) then ret None
                  else Users_findOneById "rocket.cat"
              | None => Users_findOneById "rocket.cat"
              end in
            let requestData :=
              match cat with
              | Some cat => mkRequestData "visitor" visitor (Some cat)
              | None => mkRequestData "user" visitor user
              end in
            match rd_user requestData with
            | None => throw (Error "No user provided and rocket.cat not found")
            | Some requestUser =>
                do! Message_saveSystemMessage "livechat_transcript_history"
                      (room_id room) "" (userIdentity requestUser) (Some requestData) in
                ret true
            end
      end
  end.

(** ** Sample data

    The scenarios of the specification, and the inputs at which the
    properties below are exercised. *)

Definition D1 : Department := mkDepartment "D1" None (Some true) None.
Definition D2 : Department := mkDepartment "D2" (Some "D3") None None.
Definition D3 : Department := mkDepartment "D3" None None None.
Definition D4 : Department := mkDepartment "D4" None (Some true) (Some ["billing"; "a"]).

(** [D2] has no online agent and falls back to [D3], which has one. *)
Definition sampleDirectory : Directory :=
  mkDirectory
    (<["D1" := D1]> (<["D2" := D2]> (<["D3" := D3]> (<["D4" := D4]> ∅))))
    (<["D2" := 0]> (<["D3" := 1]> ∅))
    ["agent-1"].

(** Two departments that fall back to each other, nobody online. *)
Definition cyclicDirectory : Directory :=
  mkDirectory
    (<["D1" := mkDepartment "D1" (Some "D2") None None]>
       (<["D2" := mkDepartment "D2" (Some "D1") None None]> ∅))
    ∅ [].

Definition U1 : User := mkUser "U1" (Some "agent.one") (Some "Agent One").

Definition V1 : Visitor := mkVisitor "V1" "tok-1" (Some "guest-1") (Some "Guest") None.

(** An open room without department, served since [4000]. *)
Definition R1 : Room :=
  mkRoom "R1" "l" (Some true) 1000 (Some (mkServedBy "U1" 4000)) None None None
    (Some (mkRoomVisitor "V1" "tok-1")) None.

(** An open room of [D1], which requires tags and has none configured. *)
Definition R2 : Room :=
  mkRoom "R2" "l" (Some true) 1000 None (Some "D1") None None
    (Some (mkRoomVisitor "V1" "tok-1")) None.

(** An open room of [D4] that carries no tag. *)
Definition R3 : Room :=
  mkRoom "R3" "l" (Some true) 1000 None (Some "D4") None None
    (Some (mkRoomVisitor "V1" "tok-1")) None.

(** An open room of [D4] that carries two tags. *)
Definition R5 : Room :=
  mkRoom "R5" "l" (Some true) 1000 None (Some "D4") (Some ["a"; "b"]) None
    (Some (mkRoomVisitor "V1" "tok-1")) None.

(** A room that is closed already. *)
Definition R0 : Room :=
  mkRoom "R0" "l" None 1000 None None None None
    (Some (mkRoomVisitor "V1" "tok-1")) None.

Definition agentIdentity : Identity := mkIdentity "U1" (Some "agent.one") (Some "Agent One").
Definition guestIdentity : Identity := mkIdentity "V1" (Some "guest-1") (Some "Guest").

(** The history of [R1]: two visitor lines, a navigation record, an agent
    line, and a line stamped after the sample closing times. *)
Definition sampleMessages : list Message :=
  [ mkMessage "R1" None 3000 (Some "second") guestIdentity None None None;
    mkMessage "R1" (Some "livechat_navigation_history") 2500 (Some "/pricing")
      guestIdentity None None None;
    mkMessage "R1" None 2000 (Some "first") guestIdentity None None None;
    mkMessage "R1" None 3500 (Some "reply") agentIdentity None None None;
    mkMessage "R2" None 2200 (Some "elsewhere") guestIdentity None None None;
    mkMessage "R1" None 20000 (Some "late") guestIdentity None None None ].

(** The sample world with the clock at [now]. *)
Definition sampleWorldAt (now : Z) : World :=
  mkWorld now (mkSettings None true "Support <support@example.org>") true
    sampleDirectory [V1] (<["U1" := U1]> ∅)
    (<["R0" := R0]> (<["R1" := R1]> (<["R2" := R2]> (<["R3" := R3]> (<["R5" := R5]> ∅)))))
    sampleMessages [].

Definition sampleWorld : World := sampleWorldAt 10000.

(** A close request by user [U1]. *)
Definition closeBy (room : option Room) (comment : option string)
    (options : option CloseOptions) : CloseRoomParams :=
  mkCloseRoomParams room comment options (Some U1) None.

(** A client-initiated request with the given tags. *)
Definition clientRequest (ts : option (list string)) : CloseOptions :=
  mkCloseOptions (Some true) ts None None.

Definition sampleRendering : Rendering :=
  mkRendering (λ key _, key) (λ _ _ _, "date") (λ _, "UTC") (λ _, Some "support@example.org").

(** ** Routing: bots, the [online] check and the registration department *)

(** The settings and stores [online] reads besides the directory. A cursor
    is kept as the number [count()] yields; [getBotsForDepartment] may yield
    no cursor. *)
Record Routing := mkRouting {
  routing_directory : Directory;
  Livechat_accept_chats_with_no_agents : bool;
  Livechat_assign_new_conversation_to_bot : bool;
  (** [LivechatDepartmentAgents.getBotsForDepartment]: bots per department *)
  departmentBots : gmap string nat;
  (** [Users.findBotAgents()]: bots system-wide *)
  botAgents : nat
}.

(** [getBotAgents(department?)]. *)
Definition getBotAgents (R : Routing) (department : option string) : option nat :=
  match department with
  | Some d =>
      if truthyString d then departmentBots R !! d else Some (botAgents R)
  | None => Some (botAgents R)
  end.

(** The bot branch of [online]: bots are assigned new conversations,
    [getBotAgents] yields a cursor and its count is positive. *)
Definition onlineBotFound (R : Routing) (department : option string) : bool :=
  if Livechat_assign_new_conversation_to_bot R then
    match getBotAgents R department with
    | Some onlineBots => bool_decide (0 < onlineBots)
    | None => false
    end
  else false.

(** [online(department?, skipNoAgentSetting = false, skipFallbackCheck = false)];
    [fuel] bounds the nested calls of [checkOnlineAgents]. *)
Definition online (fuel : nat) (R : Routing) (department : option string)
    (skipNoAgentSetting skipFallbackCheck : bool) : option bool :=
  if negb skipNoAgentSetting && Livechat_accept_chats_with_no_agents R
  then Some true
  else if onlineBotFound R department then Some true
  else checkOnlineAgents fuel (routing_directory R) department None skipFallbackCheck.

(** A document of the [findEnabledWithAgents] cursor. *)
Record RegistrationDepartment := mkRegistrationDepartment {
  reg_id : string;
  showOnRegistration : option bool
}.

(** [onlineAgents && (await onlineAgents.count())] for the cursor of
    [LivechatDepartmentAgents.getOnlineForDepartment(dept._id)]: no cursor
    and an empty cursor are both falsy. *)
Definition hasOnlineAgents (dir : Directory) (id : string) : bool :=
  match departmentOnline dir !! id with
  | Some n => bool_decide (0 < n)
  | None => false
  end.

(** [getRequiredDepartment(onlineRequired = true)] over the departments the
    cursor yields, in cursor order; [None] is the [undefined] the method
    returns when the loop runs out. *)
Fixpoint getRequiredDepartment (dir : Directory)
    (departments : list RegistrationDepartment) (onlineRequired : bool)
    : option RegistrationDepartment :=
  match departments with
  | [] => None
  | dept :: rest =>
      if negb (truthyBool (showOnRegistration dept))
      then getRequiredDepartment dir rest onlineRequired
      else if negb onlineRequired then Some dept
      else if hasOnlineAgents dir (reg_id dept) then Some dept
      else getRequiredDepartment dir rest onlineRequired
  end.

(** The test a department has to pass to be returned. *)
Definition qualifies (dir : Directory) (onlineRequired : bool)
    (dept : RegistrationDepartment) : Prop :=
  truthyBool (showOnRegistration dept) = true
  ∧ (onlineRequired = true → hasOnlineAgents dir (reg_id dept) = true).

#[global] Instance qualifies_dec dir onlineRequired dept :
  Decision (qualifies dir onlineRequired dept).
Proof. unfold qualifies. apply _. Defined.

(** Sample routing data: chats are not accepted without agents, bots are
    assigned new conversations, and neither [D2], whose bot cursor is
    empty, nor the cycle has a bot. *)
Definition sampleRouting : Routing :=
  mkRouting sampleDirectory false true (<["D2" := 0]> ∅) 0.

Definition cyclicRouting (accept : bool) : Routing :=
  mkRouting cyclicDirectory accept true ∅ 0.

Definition sampleRegistration : list RegistrationDepartment :=
  [ mkRegistrationDepartment "D1" None;
    mkRegistrationDepartment "D2" (Some true);
    mkRegistrationDepartment "D3" (Some true);
    mkRegistrationDepartment "D4" (Some true) ].


(** An open room that the room store does not hold. *)
Definition R9 : Room :=
  mkRoom "R9" "l" (Some true) 1000 None None None None
    (Some (mkRoomVisitor "V1" "tok-1")) None.

(** A close request that names both a user and a visitor, and one that
    names neither. *)
Definition closeByBoth (room : Room) : CloseRoomParams :=
  mkCloseRoomParams (Some room) None None (Some U1) (Some V1).

Definition closeByNobody (room : Room) : CloseRoomParams :=
  mkCloseRoomParams (Some room) None None None None.


(** ** Transcript generator: the author of the audit message *)

Definition noAuthorError : Exn :=
  Error "No user provided and rocket.cat not found".

(** The [requestData.type] and [requestData.user] the audit message of
    [sendTranscript] ends up with: the requesting user when it has a
    username; otherwise the [rocket.cat] account, with type ['visitor'], when
    that account exists; otherwise the requesting user again, if any. *)
Definition auditAuthor (w : World) (user : option User) : option (string * User) :=
  match user with
  | Some u =>
      if truthyOptString (user_username u) then Some ("user", u)
      else match users w !! "rocket.cat" with
           | Some cat => Some ("visitor", cat)
           | None => Some ("user", u)
           end
  | None =>
      match users w !! "rocket.cat" with
      | Some cat => Some ("visitor", cat)
      | None => None
      end
  end.

(** The mail [sendTranscript] hands to the mailer for a rendered
    document. *)
Definition transcriptMail (X : Rendering) (w : World) (visitor : Visitor)
    (email : string) (subject : option string) (html : string) : Email :=
  let address :=
    match matchAddress X (From_Email (settings w)) with
    | Some address => address
    | None => From_Email (settings w)
    end in
  mkEmail email address address
    (if truthyOptString subject then interpolate subject
     else i18n X "Transcript_of_your_livechat_conversation" (userLanguageOf w visitor))
    html.

(** A world whose user store lacks the [rocket.cat] account, as the sample
    world does, and one that has it. *)
Definition rocketCat : User := mkUser "rocket.cat" (Some "rocket.cat") (Some "Rocket.Cat").

Definition sampleWorldWithCat : World :=
  mkWorld 10000 (mkSettings None true "Support <support@example.org>") true
    sampleDirectory [V1] (<["rocket.cat" := rocketCat]> (<["U1" := U1]> ∅))
    (rooms sampleWorld) sampleMessages [].


(** ** The fossify script ([scripts/fossify.ts])

    The script works on the local file system through [fs.rmdir] (with the
    fixed [removeOptions]), [fs.unlink] and [fs.rename], and talks to the
    user through [readline] and the console. The file system is a
    parameter: an operation either fails with the message of its error or
    yields the next file system. *)

Record FileSystem (FS : Type) := mkFileSystem {
  fs_rmdir : string → FS → string + FS;
  fs_unlink : string → FS → string + FS;
  (** [rename(from, to)] *)
  fs_rename : string → string → FS → string + FS
}.
Arguments fs_rmdir {FS} _ _ _.
Arguments fs_unlink {FS} _ _ _.
Arguments fs_rename {FS} _ _ _ _.

Inductive FsCall :=
  | Rmdir (path : string)
  | Unlink (path : string)
  | Rename (from to : string).

Inductive ConsoleLine :=
  | ConsoleLog (line : string)
  | ConsoleError (line : string)
  (** the query [rl.question] prints *)
  | Question (query : string).

(** The state of a run: the file system, the calls made on it, the console,
    the lines the user still has to type, and how often [rl.close()] was
    called. *)
Record Script (FS : Type) := mkScript {
  script_fs : FS;
  script_calls : list FsCall;
  script_console : list ConsoleLine;
  script_input : list string;
  script_closed : nat
}.
Arguments mkScript {FS} _ _ _ _ _.
Arguments script_fs {FS} _.
Arguments script_calls {FS} _.
Arguments script_console {FS} _.
Arguments script_input {FS} _.
Arguments script_closed {FS} _.

(** A computation over a state [S] that returns or throws. *)
Definition ST (S A : Type) : Type := S → Outcome A * S.

Definition st_ret {S A} (a : A) : ST S A := λ s, (Return a, s).

Definition st_throw {S A} (e : Exn) : ST S A := λ s, (Throw e, s).

Definition st_bind {S A B} (c : ST S A) (k : A → ST S B) : ST S B :=
  λ s, match c s with
       | (Return a, s') => k a s'
       | (Throw e, s') => (Throw e, s')
       end.

(** [try { c } catch (error) { handler(error) }]. *)
Definition st_catch {S A} (c : ST S A) (handler : Exn → ST S A) : ST S A :=
  λ s, match c s with
       | (Return a, s') => (Return a, s')
       | (Throw e, s') => handler e s'
       end.

Notation "'let*' x ':=' c 'in' k" := (st_bind c (λ x, k))
  (at level 10, x name, c at level 100, k at level 200, only parsing).
Notation "'do*' c 'in' k" := (st_bind c (λ _, k))
  (at level 10, c at level 100, k at level 200, only parsing).

(** [error.message]. *)
Definition message (e : Exn) : string :=
  match e with
  | Error msg => msg
  | TypeError msg => msg
  end.

Section fossify.
Context {FS : Type} (api : FileSystem FS).

Definition console_log (line : string) : ST (Script FS) unit :=
  λ s, (Return tt,
        mkScript (script_fs s) (script_calls s)
          (script_console s ++ [ConsoleLog line]) (script_input s) (script_closed s)).

Definition console_error (line : string) : ST (Script FS) unit :=
  λ s, (Return tt,
        mkScript (script_fs s) (script_calls s)
          (script_console s ++ [ConsoleError line]) (script_input s) (script_closed s)).

(** A call on the file system: it is recorded, and it either replaces the
    file system or rejects with its error. *)
Definition fs_call (c : FsCall) (op : FS → string + FS) : ST (Script FS) unit :=
  λ s,
    let calls := (script_calls s ++ [c])%list in
    match op (script_fs s) with
    | inr fs' =>
        (Return tt,
         mkScript fs' calls (script_console s) (script_input s) (script_closed s))
    | inl msg =>
        (Throw (Error msg),
         mkScript (script_fs s) calls (script_console s) (script_input s)
           (script_closed s))
    end.

Definition removeDir (path description : string) : ST (Script FS) unit :=
  st_catch
    (do* console_log ("Removing " +:+ description +:+ "...") in
     do* fs_call (Rmdir path) (fs_rmdir api path) in
     console_log (description +:+ " removed successfully."))
    (λ error,
       st_throw (Error ("Failed to remove " +:+ description +:+ ": "
                        +:+ message error))).

Definition removeFile (path description : string) : ST (Script FS) unit :=
  st_catch
    (do* console_log ("Removing " +:+ description +:+ "...") in
     do* fs_call (Unlink path) (fs_unlink api path) in
     console_log (description +:+ " removed successfully."))
    (λ error,
       st_throw (Error ("Failed to remove " +:+ description +:+ ": "
                        +:+ message error))).

Definition replaceFile (oldPath newPath : string) : ST (Script FS) unit :=
  st_catch
    (do* console_log ("Replacing " +:+ oldPath +:+ " with " +:+ newPath +:+ "...") in
     do* fs_call (Rename newPath oldPath) (fs_rename api newPath oldPath) in
     console_log "File replaced successfully.")
    (λ error,
       st_throw (Error ("Failed to replace file: " +:+ message error))).

Definition fossify (dryRun : bool) : ST (Script FS) unit :=
  st_catch
    (do* console_log (if dryRun
                      then "Dry run enabled. No files will be deleted."
                      else "Starting the removal process...") in
     do* (if negb dryRun then
            do* removeDir "./ee" "Premium Apps and Packages" in
            do* removeDir "./apps/meteor/ee" "Premium code in the main app" in
            removeFile "./apps/meteor/server/ee.ts" "premium EE TypeScript file"
          else st_ret tt) in
     do* console_log "Replacing main files..." in
     do* replaceFile "./apps/meteor/server/ee.ts" "./apps/meteor/server/foss.ts" in
     console_log (if dryRun
                  then "Dry run completed. No changes were made."
                  else "Process completed successfully."))
    (λ error, console_error ("Error: " +:+ message error)).

End fossify.

(** The four calls of a full run, in order. *)
Definition fossifyCalls : list FsCall :=
  [ Rmdir "./ee";
    Rmdir "./apps/meteor/ee";
    Unlink "./apps/meteor/server/ee.ts";
    Rename "./apps/meteor/server/foss.ts" "./apps/meteor/server/ee.ts" ].


(** *** The dialogue of the script *)

Definition proceedQuery : string :=
  "Running this script will permanently delete files from the local directory. Proceed? (y, n, dry for dry-run) ".

Section startProcess.
Context {FS : Type} (api : FileSystem FS).
(** [String.prototype.toLowerCase]. *)
Context (toLowerCase : string → string).

(** [['y', 'n', 'dry'].includes(answer?.toLowerCase())] for an answer that
    was typed. *)
Definition validAnswer (answer : string) : bool :=
  bool_decide (toLowerCase answer ∈ ["y"; "n"; "dry"]).

(** The [while] loop of [startProcess] over the lines the user types: every
    iteration prints the query and takes the next line, and the loop ends
    with the first valid one. [answer] starts undefined, so the query is
    printed at least once. [None]: the lines ran out, and the question is
    never answered. *)
Fixpoint askLoop (input : list string) (console : list ConsoleLine)
    : option (string * list string * list ConsoleLine) :=
  match input with
  | [] => None
  | answer :: rest =>
      let console' := (console ++ [Question proceedQuery])%list in
      if validAnswer answer then Some (answer, rest, console')
      else askLoop rest console'
  end.

(** [rl.close()]. *)
Definition rl_close : ST (Script FS) unit :=
  λ s, (Return tt,
        mkScript (script_fs s) (script_calls s) (script_console s)
          (script_input s) (S (script_closed s))).

(** [try { c } finally { f }], for an [f] that does not throw. *)
Definition st_finally {A} (c : ST (Script FS) A) (f : ST (Script FS) unit)
    : ST (Script FS) A :=
  λ s, match c s with
       | (o, s') => (o, snd (f s'))
       end.

(** [startProcess()]; [None] when the user never gives a valid answer. *)
Definition startProcess (s : Script FS) : option (Outcome unit * Script FS) :=
  match askLoop (script_input s) (script_console s) with
  | None => None
  | Some (answer, rest, console) =>
      let asked :=
        mkScript (script_fs s) (script_calls s) console rest (script_closed s) in
      Some
        (st_finally
           (st_catch
              (if bool_decide (toLowerCase answer = "n") then
                 do* console_log "Operation aborted by user." in
                 rl_close
               else
                 let dryRun := bool_decide (toLowerCase answer = "dry") in
                 fossify api dryRun)
              (λ error,
                 console_error ("An unexpected error occurred: " +:+ message error)))
           rl_close asked)
  end.

End startProcess.

(** *** A sample file system: the set of the paths that exist

    [rmdir] removes a directory with all that is below it, [unlink] removes
    a file, [rename] moves a file over another; each fails on a path that
    does not exist. *)

Definition below (dir path : string) : bool :=
  bool_decide (path = dir) || String.prefix (dir +:+ "/") path.

Definition samplePaths_rmdir (path : string) (fs : list string) : string + list string :=
  if bool_decide (path ∈ fs)
  then inr (filter (λ p, below path p = false) fs)
  else inl ("ENOENT: no such file or directory, rmdir '" +:+ path +:+ "'").

Definition samplePaths_unlink (path : string) (fs : list string) : string + list string :=
  if bool_decide (path ∈ fs)
  then inr (filter (λ p, p ≠ path) fs)
  else inl ("ENOENT: no such file or directory, unlink '" +:+ path +:+ "'").

Definition samplePaths_rename (from to : string) (fs : list string) : string + list string :=
  if bool_decide (from ∈ fs)
  then inr (to :: filter (λ p, p ≠ from ∧ p ≠ to) fs)
  else inl ("ENOENT: no such file or directory, rename '" +:+ from +:+ "' -> '"
            +:+ to +:+ "'").

Definition samplePaths : FileSystem (list string) :=
  mkFileSystem (list string) samplePaths_rmdir samplePaths_unlink samplePaths_rename.

(** A checkout with the premium code, and one from which [./ee] is gone. *)
Definition sampleCheckout : list string :=
  [ "./ee"; "./ee/packages/license";
    "./apps/meteor/ee"; "./apps/meteor/ee/server/index.ts";
    "./apps/meteor/server/ee.ts"; "./apps/meteor/server/foss.ts";
    "./apps/meteor/server/main.ts" ].

Definition strippedCheckout : list string :=
  [ "./apps/meteor/server/ee.ts"; "./apps/meteor/server/foss.ts" ].

(** A checkout that has the premium directories but no [ee.ts]. *)
Definition partialCheckout : list string :=
  [ "./ee"; "./ee/packages/license";
    "./apps/meteor/ee"; "./apps/meteor/ee/server/index.ts";
    "./apps/meteor/server/foss.ts"; "./apps/meteor/server/main.ts" ].

Definition sampleScript (fs input : list string) : Script (list string) :=
  mkScript fs [] [] input 0.

(** Lower case for the answers of the samples: the letters [A] to [Z]. *)
Definition lowerAscii (c : Ascii.ascii) : Ascii.ascii :=
  let n := Ascii.nat_of_ascii c in
  if bool_decide (65 ≤ n)%nat && bool_decide (n ≤ 90)%nat
  then Ascii.ascii_of_nat (n + 32)
  else c.

Fixpoint lowerString (s : string) : string :=
  match s with
  | EmptyString => EmptyString
  | String c rest => String (lowerAscii c) (lowerString rest)
  end.


(** ** The slack import command ([slackbridge_import.server.js]) *)

(** What the command reads of a room and of a user. *)
Record Channel := mkChannel {
  channel_name : option string
}.

Record Account := mkAccount {
  account_username : option string;
  account_language : option string
}.

(** A message put on [msgStream]. *)
Record Notice := mkNotice {
  notice_id : string;
  notice_rid : string;
  notice_username : string;
  notice_ts : Z;
  notice_msg : string
}.

(** What [slack.importMessages(rid, callback)] does as seen from the
    command: it calls the callback some number of times, with or without an
    error (given by its message), and then resolves or rejects. *)
Record Adapter := mkAdapter {
  adapter_callbacks : list (option string);
  adapter_rejects : option Exn
}.

(** The surroundings of the command: the stores, the adapters, the value
    of [new Date()], the ids [Random.id()] yields in turn, and
    [TAPi18n.__(key, { postProcess: 'sprintf', sprintf }, language)]. *)
Record SlackEnv := mkSlackEnv {
  slack_rooms : gmap string Channel;
  slack_users : gmap string Account;
  slackAdapters : list Adapter;
  slack_now : Z;
  randomId : nat → string;
  sprintf_i18n : string → list string → option string → string
}.

(** The stream and the number of ids drawn so far. *)
Record SlackState := mkSlackState {
  emitted : list Notice;
  idsDrawn : nat
}.

Section slackbridge.
Context (env : SlackEnv).

(** [msgStream.emit(rid, { _id: Random.id(), rid, u: { username:
    'rocket.cat' }, ts: new Date(), msg })]. *)
Definition emitNotice (rid msg : string) : ST SlackState unit :=
  λ s, (Return tt,
        mkSlackState
          (emitted s
           ++ [mkNotice (randomId env (idsDrawn s)) rid "rocket.cat" (slack_now env) msg])
          (S (idsDrawn s))).

(** The callback handed to [importMessages]. *)
Definition importCallback (rid : string) (channel : option string)
    (user : Account) (error : option string) : ST SlackState unit :=
  match error with
  | Some errorMessage =>
      emitNotice rid
        (sprintf_i18n env "SlackBridge_error" [interpolate channel; errorMessage]
           (account_language user))
  | None =>
      emitNotice rid
        (sprintf_i18n env "SlackBridge_finish" [interpolate channel]
           (account_language user))
  end.

Fixpoint runCallbacks (rid : string) (channel : option string) (user : Account)
    (calls : list (option string)) : ST SlackState unit :=
  match calls with
  | [] => st_ret tt
  | error :: rest =>
      do* importCallback rid channel user error in
      runCallbacks rid channel user rest
  end.

(** [await slack.importMessages(message.rid, callback)]. *)
Definition importMessages (slack : Adapter) (rid : string) (channel : option string)
    (user : Account) : ST SlackState unit :=
  do* runCallbacks rid channel user (adapter_callbacks slack) in
  match adapter_rejects slack with
  | Some error => st_throw error
  | None => st_ret tt
  end.

(** The [for await] loop over the adapters. *)
Fixpoint importAll (adapters : list Adapter) (rid : string) (channel : option string)
    (user : Account) : ST SlackState unit :=
  match adapters with
  | [] => st_ret tt
  | slack :: rest =>
      do* importMessages slack rid channel user in
      importAll rest rid channel user
  end.

Definition roomNameError : Exn :=
  TypeError "Cannot read properties of null (reading 'name')".

Definition usernameError : Exn :=
  TypeError "Cannot read properties of null (reading 'username')".

(** [SlackBridgeImport({ command, params, message, userId })]; [params] is
    [None] when it is not a string, and [rid] is [message.rid]. *)
Definition SlackBridgeImport (command : string) (params : option string)
    (rid userId : string) : ST SlackState unit :=
  if negb (bool_decide (command = "slackbridge-import"))
     || negb (bool_decide (is_Some params))
  then st_ret tt
  else
    match slack_rooms env !! rid with
    | None => st_throw roomNameError
    | Some room =>
        let channel := channel_name room in
        match slack_users env !! userId with
        | None =>
            (* the id of the start notice is drawn before [user.username]
               is read *)
            λ s, (Throw usernameError, mkSlackState (emitted s) (S (idsDrawn s)))
        | Some user =>
            do* emitNotice rid
                  (sprintf_i18n env "SlackBridge_start"
                     [interpolate (account_username user); interpolate channel]
                     (account_language user)) in
            st_catch
              (importAll (slackAdapters env) rid channel user)
              (λ error,
                 do* emitNotice rid
                       (sprintf_i18n env "SlackBridge_error"
                          [interpolate channel; message error]
                          (account_language user)) in
                 st_throw error)
        end
    end.

End slackbridge.

(** What every notice of the command looks like. *)
Definition importNoticeOf (env : SlackEnv) (rid : string) (n : Notice) : Prop :=
  notice_rid n = rid
  ∧ notice_username n = "rocket.cat"
  ∧ notice_ts n = slack_now env.

(** The adapters up to and including the first one that rejects, or all of
    them when none does: the adapters the loop gets to. *)
Fixpoint adaptersRun (adapters : list Adapter) : list Adapter :=
  match adapters with
  | [] => []
  | slack :: rest =>
      match adapter_rejects slack with
      | Some _ => [slack]
      | None => slack :: adaptersRun rest
      end
  end.

(** The first rejection among the adapters, if any. *)
Fixpoint firstRejection (adapters : list Adapter) : option Exn :=
  match adapters with
  | [] => None
  | slack :: rest =>
      match adapter_rejects slack with
      | Some error => Some error
      | None => firstRejection rest
      end
  end.

(** The number of callback calls of a list of adapters. *)
Definition callbackCount (adapters : list Adapter) : nat :=
  length (concat (map adapter_callbacks adapters)).

(** Sample surroundings: a channel, its importer, and three adapters of
    which the second reports an error and then rejects. *)
Definition sampleSlackEnv : SlackEnv :=
  mkSlackEnv
    (<["GENERAL" := mkChannel (Some "general")]> ∅)
    (<["U1" := mkAccount (Some "agent.one") (Some "en")]> ∅)
    [ mkAdapter [None] None;
      mkAdapter [Some "rate limited"] (Some (Error "channel_not_found"));
      mkAdapter [None] None ]
    10000
    (λ n, "id-" +:+ String (Ascii.ascii_of_nat (48 + n)) "")
    (λ key args _, key +:+ ":" +:+ String.concat "," args).

Definition emptySlackState : SlackState := mkSlackState [] 0.


(** * Properties *)

Local Close Scope string_scope.

(** ** Availability resolver *)

Section availability.
Context (dir : Directory).

Lemma fallbackOf_truthy d f :
  fallbackOf dir d = Some f → truthyString f = true.
Proof.
  unfold fallbackOf. destruct (findDepartmentById dir d) as [dep|]; [|done].
  destruct (fallbackForwardDepartment dep) as [g|]; [|done].
  destruct (truthyString g) eqn:Hg; [|done]. by intros [= <-].
Qed.

(** One fallback hop costs one nested call. *)
Lemma checkOnlineAgents_hop fuel d f :
  truthyString d = true →
  checkOnlineForDepartment dir d = false →
  fallbackOf dir d = Some f →
  checkOnlineAgents (S fuel) dir (Some d) None false
  = checkOnlineAgents fuel dir (Some f) None false.
Proof.
  intros Hd Hoff Hf. simpl. rewrite Hd, Hoff. simpl.
  unfold fallbackOf in Hf.
  destruct (findDepartmentById dir d) as [dep|]; [|done].
  destruct (fallbackForwardDepartment dep) as [g|]; [|done].
  destruct (truthyString g); [|done]. by injection Hf as ->.
Qed.

Lemma checkOnlineAgents_online fuel d skip :
  truthyString d = true →
  checkOnlineForDepartment dir d = true →
  checkOnlineAgents (S fuel) dir (Some d) None skip = Some true.
Proof. intros Hd Hon. simpl. by rewrite Hd, Hon. Qed.

Lemma checkOnlineAgents_last fuel d :
  truthyString d = true →
  checkOnlineForDepartment dir d = false →
  fallbackOf dir d = None →
  checkOnlineAgents (S fuel) dir (Some d) None false = Some false.
Proof.
  intros Hd Hoff Hf. simpl. rewrite Hd, Hoff. simpl.
  unfold fallbackOf in Hf.
  destruct (findDepartmentById dir d) as [dep|]; [|done].
  destruct (fallbackForwardDepartment dep) as [g|]; [|done].
  by destruct (truthyString g).
Qed.

Lemma checkOnlineAgents_skip fuel d :
  truthyString d = true →
  checkOnlineAgents (S fuel) dir (Some d) None true
  = Some (checkOnlineForDepartment dir d).
Proof. intros Hd. simpl. rewrite Hd. by rewrite orb_true_r. Qed.

(** A result, once reached, does not depend on the remaining fuel. *)
Lemma checkOnlineAgents_mono fuel fuel' department agent skip b :
  fuel ≤ fuel' →
  checkOnlineAgents fuel dir department agent skip = Some b →
  checkOnlineAgents fuel' dir department agent skip = Some b.
Proof.
  revert fuel' department agent skip.
  induction fuel as [|fuel IH]; intros fuel' department agent skip Hle; [done|].
  destruct fuel' as [|fuel']; [lia|]. simpl.
  destruct (forcedAgent agent); [done|].
  destruct department as [d|]; [|done].
  destruct (truthyString d); [|done].
  destruct (checkOnlineForDepartment dir d || skip); [done|].
  destruct (findDepartmentById dir d) as [dep|]; [|done].
  destruct (fallbackForwardDepartment dep) as [g|]; [|done].
  destruct (truthyString g); [|done].
  apply IH. lia.
Qed.

Lemma hops_add n m d :
  hops dir (n + m) d
  = match hops dir n d with Some x => hops dir m x | None => None end.
Proof.
  revert d. induction n as [|n IH]; intros d; simpl; [done|].
  destruct (fallbackOf dir d); [apply IH|done].
Qed.

Lemma hops_truthy n d x :
  0 < n → hops dir n d = Some x → truthyString x = true.
Proof.
  revert d. induction n as [|n IH]; intros d Hn; [lia|]. simpl.
  destruct (fallbackOf dir d) as [f|] eqn:Hf; [|done].
  destruct n as [|n].
  - simpl. intros [= <-]. by eapply fallbackOf_truthy.
  - apply IH. lia.
Qed.

(** Every department reached from a department of a cycle leads back to
    it. *)
Lemma onCycle_back d k x :
  onCycle dir d → hops dir k d = Some x → ∃ j, hops dir j x = Some d.
Proof.
  intros (n & Hn & Hcyc). revert x.
  induction k as [k IH] using lt_wf_ind; intros x Hk.
  destruct (decide (k ≤ n)) as [Hle|Hgt].
  - exists (n - k). replace n with (k + (n - k)) in Hcyc by lia.
    rewrite hops_add, Hk in Hcyc. done.
  - apply (IH (k - n)); [lia|].
    replace k with (n + (k - n)) in Hk by lia.
    by rewrite hops_add, Hcyc in Hk.
Qed.

(** On a cycle every department has a successor. *)
Lemma onCycle_next d k x :
  onCycle dir d → hops dir k d = Some x →
  ∃ f, fallbackOf dir x = Some f ∧ hops dir (S k) d = Some f.
Proof.
  intros Hcyc Hk.
  assert (∃ f, fallbackOf dir x = Some f) as [f Hf].
  { destruct (onCycle_back d k x Hcyc Hk) as [[|j] Hj].
    - simpl in Hj. injection Hj as ->.
      destruct Hcyc as ([|n] & Hn & Hcyc); [lia|]. simpl in Hcyc.
      destruct (fallbackOf dir d) as [f|]; [by exists f|done].
    - simpl in Hj. destruct (fallbackOf dir x) as [f|]; [by exists f|done]. }
  exists f. split; [done|].
  replace (S k) with (k + 1) by lia. rewrite hops_add, Hk. simpl. by rewrite Hf.
Qed.

(** The unbounded recursion: when no department of the cycle has an online
    agent, no number of nested calls is enough. *)
Lemma checkOnlineAgents_diverges d :
  onCycle dir d →
  (∀ k x, hops dir k d = Some x → checkOnlineForDepartment dir x = false) →
  ∀ fuel k x, 0 < k → hops dir k d = Some x →
    checkOnlineAgents fuel dir (Some x) None false = None.
Proof.
  intros Hcyc Hoff. induction fuel as [|fuel IH]; intros k x Hpos Hk; [done|].
  destruct (onCycle_next d k x Hcyc Hk) as (f & Hf & Hkf).
  rewrite (checkOnlineAgents_hop fuel x f).
  - apply (IH (S k)); [lia|done].
  - by eapply hops_truthy.
  - by eapply Hoff.
  - done.
Qed.

(** The walk along an acyclic chain. *)
Lemma checkOnlineAgents_chain d l :
  Chain dir d l → truthyString d = true →
  ∀ fuel, length l ≤ fuel →
    checkOnlineAgents fuel dir (Some d) None false
    = Some (existsb (checkOnlineForDepartment dir) l).
Proof.
  induction 1 as [d Hlast|d f l Hf Hchain IH]; intros Hd fuel Hfuel;
    simpl in Hfuel; (destruct fuel as [|fuel]; [lia|]);
    cbn [existsb]; destruct (checkOnlineForDepartment dir d) eqn:Hon.
  - by apply checkOnlineAgents_online.
  - by apply checkOnlineAgents_last.
  - by apply checkOnlineAgents_online.
  - rewrite (checkOnlineAgents_hop fuel d f) by done.
    apply IH; [by eapply fallbackOf_truthy|lia].
Qed.

(** A chain lists the departments in the order of the hops. *)
Lemma Chain_hops d l :
  Chain dir d l → ∀ k x, l !! k = Some x → hops dir k d = Some x.
Proof.
  induction 1 as [d Hlast|d f l Hf Hchain IH]; intros [|k] x Hk; simpl in *.
  - congruence.
  - by rewrite lookup_nil in Hk.
  - congruence.
  - rewrite Hf. by apply IH.
Qed.

Lemma Chain_length_hops d l :
  Chain dir d l → hops dir (length l) d = None.
Proof.
  induction 1 as [d Hlast|d f l Hf Hchain IH]; simpl.
  - by rewrite Hlast.
  - by rewrite Hf.
Qed.

(** A chain never meets a cycle: no department of it is visited twice. *)
Lemma Chain_not_onCycle d l x :
  Chain dir d l → x ∈ l → ¬ onCycle dir x.
Proof.
  intros Hchain Hx Hcyc.
  apply list_elem_of_lookup in Hx as [k Hk].
  pose proof (Chain_hops d l Hchain k x Hk) as Hkx.
  pose proof (Chain_length_hops d l Hchain) as Hend.
  apply lookup_lt_Some in Hk.
  replace (length l) with (k + (length l - k)) in Hend by lia.
  rewrite hops_add, Hkx in Hend.
  assert (∀ j, ∃ y, hops dir j x = Some y) as Hall.
  { induction j as [|j [y Hy]]; [by exists x|].
    destruct (onCycle_next x j y Hcyc Hy) as (f & _ & Hf). by exists f. }
  destruct (Hall (length l - k)) as [y Hy]. congruence.
Qed.

End availability.

(** ** Tag policy resolver *)

Lemma setAddAll_elem seen l x :
  x ∈ setAddAll seen l ↔ x ∈ seen ∨ x ∈ l.
Proof.
  revert seen. induction l as [|y l IH]; intros seen; simpl.
  - rewrite elem_of_nil. tauto.
  - destruct (decide (y ∈ seen)) as [Hin|Hout]; rewrite IH.
    + rewrite elem_of_cons. split; [tauto|]. intros [?|[->|?]]; tauto.
    + rewrite elem_of_app, !elem_of_cons, elem_of_nil. tauto.
Qed.

Lemma setAddAll_NoDup seen l :
  NoDup seen → NoDup (setAddAll seen l).
Proof.
  revert seen. induction l as [|y l IH]; intros seen Hseen; simpl; [done|].
  destruct (decide (y ∈ seen)) as [Hin|Hout]; apply IH; [done|].
  apply NoDup_app. split_and!; [done| |apply NoDup_singleton].
  intros z Hz ->%list_elem_of_singleton. done.
Qed.

Lemma concatUnique_NoDup arrays : NoDup (concatUnique arrays).
Proof. apply setAddAll_NoDup, NoDup_nil_2. Qed.

Lemma concatUnique_pair a b x :
  x ∈ concatUnique [a; b] ↔ x ∈ tagList a ∨ x ∈ tagList b.
Proof.
  unfold concatUnique. rewrite setAddAll_elem, elem_of_nil.
  destruct a as [a|], b as [b|]; simpl;
    rewrite ?app_nil_r, ?elem_of_app, ?elem_of_nil; tauto.
Qed.

(** The tags of [spreadTags options ts] are [ts] unless [ts] is empty, in
    which case the field of [options] is kept. *)
Lemma spreadTags_tags options ts :
  tags (spreadTags options ts)
  = match ts with [] => tags options | _ :: _ => Some ts end.
Proof. by destruct ts. Qed.

Lemma spreadTags_other options ts :
  clientAction (spreadTags options ts) = clientAction options
  ∧ emailTranscript (spreadTags options ts) = emailTranscript options
  ∧ pdfTranscript (spreadTags options ts) = pdfTranscript options.
Proof. by destruct ts. Qed.

(** The resolver only reads: whatever the outcome, the world is the one it
    started from. *)
Lemma resolveChatTags_world room options w :
  snd (resolveChatTags room options w) = w.
Proof.
  unfold resolveChatTags, LivechatDepartment_findOneById, bind, gets, ret, throw.
  repeat (case_match; simpl; try done).
Qed.

(** A returned value is the request with the merged tags spread over it. *)
Lemma resolveChatTags_return room options w updated :
  fst (resolveChatTags room options w) = Return updated →
  updated = spreadTags (default noOptions options)
              (mergedTags w room (default noOptions options)).
Proof.
  unfold resolveChatTags, mergedTags, LivechatDepartment_findOneById,
    bind, gets, ret, throw.
  repeat (case_match; simpl in *; simplify_eq; try done); congruence.
Qed.

Lemma concatUnique_pair_nil a b :
  concatUnique [a; b] = [] ↔ tagList a = [] ∧ tagList b = [].
Proof.
  split.
  - intros Hnil. split; apply elem_of_nil_inv; intros x Hx;
      assert (x ∈ concatUnique [a; b]) as Hin
        by (apply concatUnique_pair; tauto);
      rewrite Hnil in Hin; by apply elem_of_nil in Hin.
  - intros [Ha Hb]. apply elem_of_nil_inv. intros x Hx.
    apply concatUnique_pair in Hx. rewrite Ha, Hb in Hx.
    destruct Hx as [Hx|Hx]; by apply elem_of_nil in Hx.
Qed.

Lemma length_pos_false (l : list string) :
  bool_decide (0 < length l) = false ↔ l = [].
Proof.
  destruct l; simpl; [done|]. split; done.
Qed.

Section tag_policy.
Context (w : World) (room : Room) (did : string) (dep : Department).
Context (Hdid : room_departmentId room = Some did).
Context (Htruthy : truthyString did = true).
Context (Hdep : findDepartmentById (directory w) did = Some dep).

Lemma resolveChatTags_violation options :
  truthyBool (requestTagBeforeClosingChat dep) = true →
  tagPolicyViolated room (default noOptions options) dep →
  resolveChatTags room options w = (Throw tagsError, w).
Proof.
  intros Hreq Hviol.
  unfold resolveChatTags, LivechatDepartment_findOneById, bind, gets.
  rewrite Hdid, Htruthy, Hdep, Hreq. simpl.
  destruct Hviol as [(Hclient & Hroom & Hopt)|Hnone].
  - rewrite Hclient. simpl.
    replace (concatUnique [tags (default noOptions options); room_tags room])
      with (@nil string) by (symmetry; by apply concatUnique_pair_nil).
    done.
  - destruct (chatClosingTags dep) as [[|c cts]|]; simpl in *;
      rewrite ?orb_true_r; done.
Qed.

Lemma resolveChatTags_compliant options :
  truthyBool (requestTagBeforeClosingChat dep) = true →
  ¬ tagPolicyViolated room (default noOptions options) dep →
  ∃ updated, resolveChatTags room options w = (Return updated, w).
Proof.
  intros Hreq Hok.
  unfold resolveChatTags, LivechatDepartment_findOneById, bind, gets.
  rewrite Hdid, Htruthy, Hdep, Hreq. simpl.
  destruct (negb _ || negb _) eqn:Hcheck; [|by eexists].
  exfalso. apply Hok. unfold tagPolicyViolated.
  apply orb_true_iff in Hcheck as [Hcheck|Hcheck];
    apply negb_true_iff in Hcheck.
  - left. apply orb_false_iff in Hcheck as [Hclient Hlen].
    apply negb_false_iff in Hclient.
    apply length_pos_false, concatUnique_pair_nil in Hlen. tauto.
  - right. destruct (chatClosingTags dep) as [cts|]; [|done].
    by apply length_pos_false in Hcheck.
Qed.

End tag_policy.

(** ** Closure coordinator *)

Lemma chatCloserOf_world p w :
  snd (chatCloserOf p w) = w.
Proof.
  unfold chatCloserOf. destruct (params_user p); [done|].
  by destruct (params_visitor p).
Qed.

Lemma chatCloserOf_throw p w e :
  fst (chatCloserOf p w) = Throw e → e = closerError.
Proof.
  unfold chatCloserOf. destruct (params_user p); [done|].
  destruct (params_visitor p); [done|]. simpl. congruence.
Qed.

(** The closing write leaves the room closed, whether it took effect or
    found the room closed already. *)
Lemma closeWrite_closed rid closeData rs r :
  closeWrite rid closeData rs !! rid = Some r →
  truthyBool (room_open r) = false.
Proof.
  unfold closeWrite. destruct (rs !! rid) as [r0|] eqn:Hr0; [|congruence].
  destruct (truthyBool (room_open r0)) eqn:Hopen.
  - rewrite lookup_insert_eq. by intros [= <-].
  - congruence.
Qed.

Lemma closeWrite_open rid closeData rs r :
  rs !! rid = Some r → truthyBool (room_open r) = true →
  closeWrite rid closeData rs = <[rid := closedRoom r closeData]> rs.
Proof. intros Hr Hopen. unfold closeWrite. by rewrite Hr, Hopen. Qed.

(** The committed phase, run on a world. *)
Lemma commitClosure_run rid closeData chatCloser comment transcriptRequest options w :
  let rs := closeWrite rid closeData (rooms w) in
  let writes :=
    [ LivechatRooms_closeRoomById rid closeData;
      LivechatInquiry_removeByRoomId rid;
      Subscriptions_removeByRoomId rid ] in
  commitClosure rid closeData chatCloser comment transcriptRequest options w
  = match rs !! rid with
    | None =>
        (Throw roomNotFoundError,
         mkWorld (clock w) (settings w) (bridges w) (directory w) (visitors w)
           (users w) rs (messages w) (journal w ++ writes))
    | Some newRoom =>
        let ms := closingMessages w rid newRoom chatCloser comment transcriptRequest in
        (Return tt,
         mkWorld (clock w) (settings w) (bridges w) (directory w) (visitors w)
           (users w) rs (messages w ++ ms)
           (journal w ++ writes ++ map Messages_insert ms
            ++ [Callbacks_runAsync "livechat.closeRoom" newRoom options]
            ++ closingEvents w newRoom))
    end.
Proof.
  intros rs writes. subst rs writes.
  unfold commitClosure, LivechatRooms_closeRoomById_write, LivechatRooms_findOneById,
    sendMessage, Message_saveSystemMessage, insertMessage, livechatEvent,
    closingEvents, call, bind, gets, modify, ret, throw, setRooms, setMessages,
    setJournal.
  simpl. destruct (closeWrite rid closeData (rooms w) !! rid) as [newRoom|]; simpl.
  - destruct (bridges w); simpl; rewrite <- ?app_assoc; reflexivity.
  - rewrite <- ?app_assoc. reflexivity.
Qed.

(** Case analysis on the outcome of a step [c w] that only reads, [Hworld]
    being the proof that it leaves the world as it is. *)
Ltac read_only_step c w Hworld :=
  let Hw := fresh "Hw" in
  let w' := fresh "w'" in
  pose proof Hworld as Hw;
  destruct (c w) as [[?|?] w']; simpl in Hw; subst w'.

(** [closeRoom] on an open omnichannel room: the tags are resolved, the
    closer is determined, and only then does the committed phase start. *)
Lemma closeRoom_open_run p w room :
  params_room p = Some room →
  isOmnichannelRoom room = true →
  truthyBool (room_open room) = true →
  closeRoom p w
  = match resolveChatTags room (params_options p) w with
    | (Throw e, _) => (Throw e, w)
    | (Return options, _) =>
        match chatCloserOf p w with
        | (Throw e, _) => (Throw e, w)
        | (Return c, _) =>
            commitClosure (room_id room)
              (recordCloser (closeDataOf (clock w) room options) (fst c) (snd c))
              (snd c) (params_comment p) (room_transcriptRequest room) options w
        end
    end.
Proof.
  intros Hroom Homni Hopen. unfold closeRoom.
  rewrite Hroom, Homni, Hopen. simpl. unfold bind at 1.
  read_only_step (resolveChatTags room (params_options p)) w
    (resolveChatTags_world room (params_options p) w); [|done].
  unfold bind at 1. simpl. unfold bind at 1.
  read_only_step (chatCloserOf p) w (chatCloserOf_world p w); done.
Qed.

Lemma commitClosure_throw rid closeData chatCloser comment transcriptRequest options w e :
  fst (commitClosure rid closeData chatCloser comment transcriptRequest options w)
  = Throw e →
  e = roomNotFoundError.
Proof.
  rewrite commitClosure_run. simpl.
  destruct (closeWrite rid closeData (rooms w) !! rid); simpl; congruence.
Qed.

(** What a successful closure of an open room leaves behind. *)
Lemma closeRoom_success p w room w1 :
  params_room p = Some room →
  isOmnichannelRoom room = true →
  truthyBool (room_open room) = true →
  closeRoom p w = (Return tt, w1) →
  ∃ options c newRoom,
    resolveChatTags room (params_options p) w = (Return options, w)
    ∧ chatCloserOf p w = (Return c, w)
    ∧ let rid := room_id room in
      let closeData :=
        recordCloser (closeDataOf (clock w) room options) (fst c) (snd c) in
      let ms :=
        closingMessages w rid newRoom (snd c) (params_comment p)
          (room_transcriptRequest room) in
      closeWrite rid closeData (rooms w) !! rid = Some newRoom
      ∧ w1 = mkWorld (clock w) (settings w) (bridges w) (directory w)
               (visitors w) (users w) (closeWrite rid closeData (rooms w))
               (messages w ++ ms)
               (journal w
                ++ [ LivechatRooms_closeRoomById rid closeData;
                     LivechatInquiry_removeByRoomId rid;
                     Subscriptions_removeByRoomId rid ]
                ++ map Messages_insert ms
                ++ [Callbacks_runAsync "livechat.closeRoom" newRoom options]
                ++ closingEvents w newRoom).
Proof.
  intros Hroom Homni Hopen. rewrite (closeRoom_open_run p w room) by done.
  read_only_step (resolveChatTags room (params_options p)) w
    (resolveChatTags_world room (params_options p) w); [|done].
  read_only_step (chatCloserOf p) w (chatCloserOf_world p w); [|done].
  rewrite commitClosure_run. simpl.
  destruct (closeWrite _ _ (rooms w) !! room_id room) as [newRoom|] eqn:Hnew;
    [|done].
  intros [= <-]. by eexists _, _, newRoom.
Qed.

(** ** The claims on the availability resolver *)

(** C1, amended. On a fallback cycle none of whose departments has an
    online agent, [checkOnlineAgents] called on a department of the cycle
    (no forced agent, fallback not skipped) does not terminate: the method
    has no hop bound, and no number of nested calls yields a result. It
    returns [false] there only when the fallback check is skipped. *)
Theorem checkOnlineAgents_cycle_unbounded dir d :
  onCycle dir d →
  (∀ k x, hops dir k d = Some x → checkOnlineForDepartment dir x = false) →
  (∀ fuel, checkOnlineAgents fuel dir (Some d) None false = None)
  ∧ (∀ fuel, checkOnlineAgents (S fuel) dir (Some d) None true = Some false).
Proof.
  intros Hcyc Hoff. pose proof Hcyc as (n & Hn & Hback). split; intros fuel.
  - by apply (checkOnlineAgents_diverges dir d Hcyc Hoff fuel n d).
  - rewrite checkOnlineAgents_skip by (by eapply hops_truthy).
    f_equal. by apply (Hoff 0).
Qed.

(** C4. Along a fallback chain without a cycle, [checkOnlineAgents] called
    on the first department (no forced agent, fallback not skipped)
    terminates, with any number of nested calls from the length of the chain
    on, and its result is [true] exactly when some department of the chain
    reports an online agent. In particular, when the first department has
    none and its fallback has one, the result is [true]. *)
Theorem checkOnlineAgents_acyclic_chain dir d l :
  Chain dir d l →
  truthyString d = true →
  ∃ b,
    (∀ fuel, length l ≤ fuel →
       checkOnlineAgents fuel dir (Some d) None false = Some b)
    ∧ (b = true ↔ ∃ x, x ∈ l ∧ checkOnlineForDepartment dir x = true)
    ∧ (b = false ↔ ∀ x, x ∈ l → checkOnlineForDepartment dir x = false)
    ∧ (∀ d3 l', l = d :: d3 :: l' →
         checkOnlineForDepartment dir d = false →
         checkOnlineForDepartment dir d3 = true →
         b = true).
Proof.
  intros Hchain Hd. exists (existsb (checkOnlineForDepartment dir) l).
  split_and!.
  - by apply checkOnlineAgents_chain.
  - rewrite existsb_exists. by setoid_rewrite list_elem_of_In.
  - rewrite <- not_true_iff_false, existsb_exists. split.
    + intros Hnone x Hx. apply not_true_iff_false. intros Hon.
      apply Hnone. exists x. by rewrite <- list_elem_of_In.
    + intros Hall (x & Hx & Hon). apply list_elem_of_In in Hx.
      rewrite (Hall x Hx) in Hon. done.
  - intros d3 l' -> Hoff Hon. simpl. rewrite Hoff, Hon. done.
Qed.

(** ** The claims on the closure coordinator *)

(** The guard of [closeRoom]. *)
Lemma closeRoom_guarded p w room :
  params_room p = Some room →
  isOmnichannelRoom room = false ∨ truthyBool (room_open room) = false →
  closeRoom p w = (Return tt, w).
Proof.
  intros Hroom Hguard. unfold closeRoom. rewrite Hroom.
  destruct Hguard as [-> | ->]; [done|]. by rewrite orb_true_r.
Qed.

(** The guard as the code meets it: for every room that is present and is
    not of the omnichannel kind or not open, [closeRoom] returns
    successfully and leaves the world as it was: no store write, no
    message, no event. *)
Theorem closeRoom_guard_noop p w room :
  params_room p = Some room →
  isOmnichannelRoom room = false ∨ truthyBool (room_open room) = false →
  closeRoom p w = (Return tt, w).
Proof.
  intros Hroom Hguard. unfold closeRoom. rewrite Hroom.
  destruct (isOmnichannelRoom room), (truthyBool (room_open room));
    simpl; try reflexivity.
  destruct Hguard; discriminate.
Qed.

(** C3, amended. For every open room whose department has
    [requestTagBeforeClosingChat] set, [closeRoom] raises the tag-policy
    error if and only if either the request is a client-initiated action
    and neither the room nor the request carries a tag, or the department
    has no mandatory closing tag; when it raises, the world is the one
    before the call: no store write has occurred and the room remains
    open. *)
Theorem closeRoom_tag_policy p w room did dep :
  params_room p = Some room →
  isOmnichannelRoom room = true →
  truthyBool (room_open room) = true →
  room_departmentId room = Some did →
  truthyString did = true →
  findDepartmentById (directory w) did = Some dep →
  truthyBool (requestTagBeforeClosingChat dep) = true →
  (fst (closeRoom p w) = Throw tagsError
   ↔ tagPolicyViolated room (default noOptions (params_options p)) dep)
  ∧ (fst (closeRoom p w) = Throw tagsError → snd (closeRoom p w) = w).
Proof.
  intros Hroom Homni Hopen Hdid Htruthy Hdep Hreq.
  rewrite (closeRoom_open_run p w room) by done.
  destruct (decide (tagPolicyViolated room (default noOptions (params_options p)) dep))
    as [Hviol|Hok].
  - rewrite (resolveChatTags_violation w room did dep) by done. done.
  - destruct (resolveChatTags_compliant w room did dep Hdid Htruthy Hdep
                (params_options p) Hreq Hok) as [updated ->].
    assert (∀ rid cd who comment tr,
              fst (match chatCloserOf p w with
                   | (Throw e, _) => (Throw e, w)
                   | (Return c, _) =>
                       commitClosure rid (cd c) (who c) comment tr updated w
                   end) ≠ Throw tagsError) as Hnever.
    { intros rid cd who comment tr.
      destruct (chatCloserOf p w) as [[c|e] w'] eqn:Hc; simpl.
      - intros Hthrow. by apply commitClosure_throw in Hthrow.
      - intros [= ->]. pose proof (chatCloserOf_throw p w tagsError) as Habs.
        rewrite Hc in Habs. by specialize (Habs eq_refl). }
    split; [split; [|done]|]; intros Hthrow; exfalso; revert Hthrow;
      apply (Hnever _ (λ c, recordCloser _ (fst c) (snd c)) snd).
Qed.

(** C6. When [closeRoom] on an open room succeeds, the stored room goes
    from open to closed, one set of closing system messages is inserted
    (the closing message and the transcript prompt), and a second
    invocation on the room as the first one left it is a no-op: the two
    calls make one transition and insert one set of closing messages. *)
Theorem closeRoom_twice p w room w1 :
  params_room p = Some room →
  rooms w !! room_id room = Some room →
  isOmnichannelRoom room = true →
  truthyBool (room_open room) = true →
  closeRoom p w = (Return tt, w1) →
  ∃ newRoom closeData m1 m2,
    rooms w1 = <[room_id room := newRoom]> (rooms w)
    ∧ newRoom = closedRoom room closeData
    ∧ truthyBool (room_open newRoom) = false
    ∧ messages w1 = messages w ++ [m1; m2]
    ∧ m_t m1 = Some "livechat-close"%string
    ∧ m_t m2 = Some "command"%string
    ∧ ∀ p', params_room p' = Some newRoom → closeRoom p' w1 = (Return tt, w1).
Proof.
  intros Hroom Hstored Homni Hopen Hrun.
  destruct (closeRoom_success p w room w1 Hroom Homni Hopen Hrun)
    as (options & c & newRoom & _ & _ & Hnew & ->).
  rewrite (closeWrite_open _ _ _ room) in Hnew by done.
  rewrite lookup_insert_eq in Hnew. injection Hnew as <-.
  eexists _, _, _, _. simpl.
  rewrite (closeWrite_open _ _ _ room) by done.
  split_and!; try reflexivity.
  intros p' Hp'. apply (closeRoom_guarded p' _ _ Hp'). by right.
Qed.

(** The truthiness test on the service time: for a room with a servicing
    agent the field is dropped exactly when the duration is zero, that is
    when the room is closed in the millisecond of the assignment. *)
Lemma serviceTimeDurationField_None now servedBy :
  serviceTimeDurationField now servedBy = None
  ↔ servedBy = None ∨ ∃ s, servedBy = Some s ∧ servedBy_ts s = now.
Proof.
  unfold serviceTimeDurationField, truthyNumber, secondsBetween.
  destruct servedBy as [s|]; simpl.
  - destruct (Z.eqb_spec (now - servedBy_ts s) 0) as [Heq|Hne]; simpl.
    + split; [|done]. intros _. right. exists s. split; [done|lia].
    + split; [done|]. intros [?|(s' & [= <-] & Hts)]; [done|lia].
  - split; [by left|done].
Qed.

(** The close data of a successful closure carries the closing time, and
    its [serviceTimeDuration] is absent exactly when the room had no
    servicing agent or was closed in the millisecond of the assignment. *)
Lemma closeRoom_service_time p w room w1 :
  params_room p = Some room →
  isOmnichannelRoom room = true →
  truthyBool (room_open room) = true →
  closeRoom p w = (Return tt, w1) →
  ∃ closeData rest,
    journal w1
    = journal w ++ LivechatRooms_closeRoomById (room_id room) closeData :: rest
    ∧ closedAt closeData = clock w
    ∧ (serviceTimeDuration closeData = None
       ↔ room_servedBy room = None
         ∨ ∃ s, room_servedBy room = Some s ∧ servedBy_ts s = clock w).
Proof.
  intros Hroom Homni Hopen Hrun.
  destruct (closeRoom_success p w room w1 Hroom Homni Hopen Hrun)
    as (options & c & newRoom & _ & _ & _ & ->).
  eexists _, _. simpl. split; [reflexivity|]. simpl. split; [reflexivity|].
  apply serviceTimeDurationField_None.
Qed.

(** ** The claims on the tag policy resolver *)

(** C5. For a room with an existing department, the tags of the resolved
    options are a duplicate-free list whose elements are exactly the tags
    already on the room, the tags of the request and the mandatory closing
    tags of the department; hence they are, up to order, the deduplicated
    union of the three inputs however each of them is ordered. *)
Theorem resolveChatTags_union w room options did dep updated w' :
  room_departmentId room = Some did →
  truthyString did = true →
  findDepartmentById (directory w) did = Some dep →
  resolveChatTags room options w = (Return updated, w') →
  let roomTags := tagList (room_tags room) in
  let requestTags := tagList (tags (default noOptions options)) in
  let closingTags := tagList (chatClosingTags dep) in
  NoDup (tagList (tags updated))
  ∧ (∀ x, x ∈ tagList (tags updated)
          ↔ x ∈ roomTags ∨ x ∈ requestTags ∨ x ∈ closingTags)
  ∧ (∀ rt qt ct, rt ≡ₚ roomTags → qt ≡ₚ requestTags → ct ≡ₚ closingTags →
       tagList (tags updated) ≡ₚ remove_dups (rt ++ qt ++ ct)).
Proof.
  intros Hdid Htruthy Hdep Hres roomTags requestTags closingTags.
  assert (updated = spreadTags (default noOptions options)
            (concatUnique [Some (concatUnique [tags (default noOptions options);
                                                room_tags room]);
                           chatClosingTags dep])) as ->.
  { rewrite (resolveChatTags_return room options w updated) by (by rewrite Hres).
    unfold mergedTags. by rewrite Hdid, Htruthy, Hdep. }
  set (merged := concatUnique _).
  assert (∀ x, x ∈ merged ↔ x ∈ roomTags ∨ x ∈ requestTags ∨ x ∈ closingTags)
    as Hmerged.
  { intros x. subst merged. rewrite concatUnique_pair. simpl.
    rewrite concatUnique_pair. subst roomTags requestTags closingTags. tauto. }
  assert (NoDup merged) as Hnodup by apply concatUnique_NoDup.
  assert (merged = [] → requestTags = []) as Hempty.
  { intros Hnil. apply elem_of_nil_inv. intros x Hx.
    assert (x ∈ merged) as Hin by (apply Hmerged; tauto).
    rewrite Hnil in Hin. by apply elem_of_nil in Hin. }
  assert (tagList (tags (spreadTags (default noOptions options) merged)) = merged)
    as ->.
  { rewrite spreadTags_tags. destruct merged; [|done].
    by apply Hempty. }
  split_and!; [done|done|].
  intros rt qt ct Hrt Hqt Hct. apply NoDup_Permutation.
  - done.
  - apply NoDup_remove_dups.
  - intros x. rewrite elem_of_remove_dups, !elem_of_app, Hrt, Hqt, Hct.
    apply Hmerged.
Qed.

(** C10, amended. For every room and request, [resolveChatTags] writes to
    no store, and a returned value leaves [clientAction],
    [emailTranscript] and [pdfTranscript] as the request has them; its
    [tags] field is either the one of the request or a non-empty merged
    list. When the merged tag set is empty the field is left as the request
    has it: absent when the request has none, and the empty list of the
    request when it supplies one. *)
Theorem resolveChatTags_frame room options w :
  snd (resolveChatTags room options w) = w
  ∧ ∀ updated, fst (resolveChatTags room options w) = Return updated →
      let request := default noOptions options in
      clientAction updated = clientAction request
      ∧ emailTranscript updated = emailTranscript request
      ∧ pdfTranscript updated = pdfTranscript request
      ∧ (tags updated = tags request
         ∨ ∃ ts, ts ≠ [] ∧ ts = mergedTags w room request ∧ tags updated = Some ts)
      ∧ (mergedTags w room request = [] → tags updated = tags request).
Proof.
  split; [apply resolveChatTags_world|].
  intros updated Hres request.
  apply resolveChatTags_return in Hres. fold request in Hres. subst updated.
  destruct (spreadTags_other request (mergedTags w room request)) as (-> & -> & ->).
  rewrite spreadTags_tags. split_and!; try done.
  - destruct (mergedTags w room request) as [|t ts] eqn:Hm; [by left|].
    right. by exists (t :: ts).
  - by intros ->.
Qed.

(** ** The claims on the transcript generator *)

(** The message query only reads, and always yields a list. *)
Lemma transcriptMessages_run rid w :
  ∃ closing ms,
    Messages_findLivechatClosingMessage rid w = (Return closing, w)
    ∧ transcriptMessages rid w = (Return ms, w)
    ∧ ms = merge_sort tsLe
             (filter (λ m, m_rid m = rid
                           ∧ hasTypeIn ignoredMessageTypes m = false
                           ∧ (m_ts m < closingBound closing (clock w))%Z)
                     (messages w)).
Proof. by eexists _, _. Qed.



(** C9. [sendTranscript] fails with the invalid-token error whenever no
    visitor exists for the supplied token; past that check, that is with a
    visitor for the token, it fails with the invalid-room error whenever the
    room is absent, is not of the ['l'] kind, or has no visitor with the
    supplied token. In all of these cases the world is left as it was: no
    email is sent and no audit message is written. *)
Theorem sendTranscript_rejects X token rid email subject user w :
  (visitorByToken w token = None →
   sendTranscript X token rid email subject user w = (Throw invalidTokenError, w))
  ∧ (is_Some (visitorByToken w token) →
     roomRejected token (rooms w !! rid) →
     sendTranscript X token rid email subject user w = (Throw invalidRoomError, w)).
Proof.
  unfold sendTranscript, LivechatRooms_findOneById,
    LivechatVisitors_getVisitorByToken, bind, gets, throw.
  split.
  - by intros ->.
  - intros [visitor ->] Hrej. unfold roomRejected in Hrej.
    destruct (rooms w !! rid) as [room|]; [|done].
    destruct Hrej as [Hkind|Hv].
    + by rewrite bool_decide_eq_false_2.
    + destruct (room_v room) as [v|]; [|by rewrite orb_true_r].
      rewrite (bool_decide_eq_false_2 (v_token v = token)) by done.
      by rewrite orb_true_r.
Qed.

(** * The properties on the sample data *)

Local Open Scope string_scope.

Lemma cyclicDirectory_onCycle : onCycle cyclicDirectory "D1".
Proof. exists 2. split; [lia|reflexivity]. Qed.

Lemma cyclicDirectory_offline x :
  checkOnlineForDepartment cyclicDirectory x = false.
Proof. unfold checkOnlineForDepartment. simpl. by rewrite lookup_empty. Qed.

(** C1 on the two departments that fall back to each other. *)
Lemma checkOnlineAgents_cycle_unbounded_witness :
  onCycle cyclicDirectory "D1"
  ∧ (∀ k x, hops cyclicDirectory k "D1" = Some x →
            checkOnlineForDepartment cyclicDirectory x = false)
  ∧ (∀ fuel, checkOnlineAgents fuel cyclicDirectory (Some "D1") None false = None)
  ∧ (∀ fuel, checkOnlineAgents (S fuel) cyclicDirectory (Some "D1") None true
             = Some false).
Proof.
  split; [exact cyclicDirectory_onCycle|].
  split; [intros k x _; exact (cyclicDirectory_offline x)|].
  exact (checkOnlineAgents_cycle_unbounded cyclicDirectory "D1"
           cyclicDirectory_onCycle
           (λ k x _, cyclicDirectory_offline x)).
Defined.

(** C1 as stated fails: on the cycle [D1 → D2 → D1] with nobody online,
    no run of [checkOnlineAgents] on [D1] returns [false]; none returns at
    all. *)
Lemma checkOnlineAgents_cycle_no_result :
  onCycle cyclicDirectory "D1"
  ∧ checkOnlineForDepartment cyclicDirectory "D1" = false
  ∧ ¬ ∃ fuel, checkOnlineAgents fuel cyclicDirectory (Some "D1") None false
              = Some false.
Proof.
  split; [exact cyclicDirectory_onCycle|]. split; [reflexivity|].
  intros [fuel Hfuel].
  assert (checkOnlineAgents fuel cyclicDirectory (Some "D1") None false = None)
    as Hnone.
  { apply (checkOnlineAgents_diverges cyclicDirectory "D1"
             cyclicDirectory_onCycle (λ k x _, cyclicDirectory_offline x)
             fuel 2 "D1"); [lia|reflexivity]. }
  congruence.
Qed.

(** C4 on the scenario of the specification: [D2] has no online agent and
    falls back to [D3], which has one. *)
Lemma checkOnlineAgents_acyclic_chain_witness :
  Chain sampleDirectory "D2" ["D2"; "D3"]
  ∧ truthyString "D2" = true
  ∧ ∀ fuel, (2 ≤ fuel)%nat →
      checkOnlineAgents fuel sampleDirectory (Some "D2") None false = Some true.
Proof.
  assert (Chain sampleDirectory "D2" ["D2"; "D3"]) as Hchain.
  { apply Chain_hop with (f := "D3"); [reflexivity|].
    apply Chain_last. reflexivity. }
  split; [exact Hchain|]. split; [reflexivity|].
  destruct (checkOnlineAgents_acyclic_chain sampleDirectory "D2" ["D2"; "D3"]
              Hchain eq_refl) as (b & Hrun & _ & _ & Hscenario).
  rewrite (Hscenario "D3" [] eq_refl eq_refl eq_refl) in Hrun. exact Hrun.
Defined.

(** The guard on a room that is closed already. *)
Lemma closeRoom_guard_noop_witness :
  params_room (closeBy (Some R0) None None) = Some R0
  ∧ (isOmnichannelRoom R0 = false ∨ truthyBool (room_open R0) = false)
  ∧ closeRoom (closeBy (Some R0) None None) sampleWorld = (Return tt, sampleWorld).
Proof.
  split; [reflexivity|]. split; [right; reflexivity|].
  apply (closeRoom_guard_noop (closeBy (Some R0) None None) sampleWorld R0);
    [reflexivity|right; reflexivity].
Defined.

(** C2. The failing input is the absent room. The guard [!room] is there to
    return quietly, but the debug line before it reads [room._id]: the call
    raises the read error and does not return. Nothing is written, as the
    claim says; the outcome is the one that differs. *)
Lemma closeRoom_absent_room_raises :
  params_room (closeBy None None None) = None
  ∧ closeRoom (closeBy None None None) sampleWorld = (Throw roomReadError, sampleWorld)
  ∧ fst (closeRoom (closeBy None None None) sampleWorld) ≠ Return tt.
Proof. split_and!; [reflexivity|reflexivity|discriminate]. Qed.

(** C3 on the scenario of the specification: [R2] belongs to [D1], which
    requires tags and has none configured; the request is client-initiated
    and nothing carries a tag. *)
Lemma closeRoom_tag_policy_witness :
  params_room (closeBy (Some R2) None (Some (clientRequest None))) = Some R2
  ∧ isOmnichannelRoom R2 = true
  ∧ truthyBool (room_open R2) = true
  ∧ room_departmentId R2 = Some "D1"
  ∧ truthyString "D1" = true
  ∧ findDepartmentById (directory sampleWorld) "D1" = Some D1
  ∧ truthyBool (requestTagBeforeClosingChat D1) = true
  ∧ closeRoom (closeBy (Some R2) None (Some (clientRequest None))) sampleWorld
    = (Throw tagsError, sampleWorld).
Proof.
  repeat (split; [reflexivity|]).
  destruct (closeRoom_tag_policy
              (closeBy (Some R2) None (Some (clientRequest None)))
              sampleWorld R2 "D1" D1 eq_refl eq_refl eq_refl eq_refl eq_refl
              eq_refl eq_refl) as [Hiff Hworld].
  assert (fst (closeRoom (closeBy (Some R2) None (Some (clientRequest None)))
                 sampleWorld) = Throw tagsError) as Hthrow.
  { apply Hiff. right. reflexivity. }
  specialize (Hworld Hthrow).
  destruct (closeRoom _ sampleWorld) as [o w']. simpl in *. congruence.
Defined.

(** C3 as stated fails: [R3] carries no tag and the request is
    client-initiated, but the request supplies a tag and the department has
    closing tags, so the closure goes through. *)
Lemma closeRoom_request_tag_suffices :
  let p := closeBy (Some R3) None (Some (clientRequest (Some ["vip"]))) in
  isOmnichannelRoom R3 = true
  ∧ truthyBool (room_open R3) = true
  ∧ findDepartmentById (directory sampleWorld) "D4" = Some D4
  ∧ truthyBool (requestTagBeforeClosingChat D4) = true
  ∧ fst (closeRoom p sampleWorld) = Return tt
  ∧ ¬ (fst (closeRoom p sampleWorld) = Throw tagsError
       ↔ (truthyBool (clientAction (clientRequest (Some ["vip"]))) = true
          ∧ tagList (room_tags R3) = [])
         ∨ tagList (chatClosingTags D4) = []).
Proof.
  intros p. split_and!; try reflexivity.
  intros [_ Hraise].
  assert (fst (closeRoom p sampleWorld) = Throw tagsError) as Habs
    by (apply Hraise; left; split; reflexivity).
  discriminate Habs.
Qed.

(** C5 on a room with tags [a], [b], a request with tags [b], [c] and a
    department with closing tags [billing], [a]. *)
Lemma resolveChatTags_union_witness :
  let request := mkCloseOptions None (Some ["b"; "c"]) None None in
  let updated := mkCloseOptions None (Some ["b"; "c"; "a"; "billing"]) None None in
  room_departmentId R5 = Some "D4"
  ∧ truthyString "D4" = true
  ∧ findDepartmentById (directory sampleWorld) "D4" = Some D4
  ∧ resolveChatTags R5 (Some request) sampleWorld = (Return updated, sampleWorld)
  ∧ tagList (tags updated) ≡ₚ remove_dups (["b"; "a"] ++ ["c"; "b"] ++ ["a"; "billing"]).
Proof.
  intros request updated. repeat (split; [reflexivity|]).
  destruct (resolveChatTags_union sampleWorld R5 (Some request) "D4" D4 updated
              sampleWorld eq_refl eq_refl eq_refl eq_refl) as (_ & _ & Hperm).
  apply Hperm; simpl.
  - apply Permutation_swap.
  - apply Permutation_swap.
  - apply Permutation_swap.
Defined.

(** C6 on the first scenario of the specification: the open room [R1] is
    closed by user [U1] with the comment "resolved", and closed again. *)
Lemma closeRoom_twice_witness :
  let p := closeBy (Some R1) (Some "resolved") None in
  let w1 := snd (closeRoom p sampleWorld) in
  params_room p = Some R1
  ∧ rooms sampleWorld !! room_id R1 = Some R1
  ∧ isOmnichannelRoom R1 = true
  ∧ truthyBool (room_open R1) = true
  ∧ closeRoom p sampleWorld = (Return tt, w1)
  ∧ ∃ newRoom,
      rooms w1 !! "R1" = Some newRoom
      ∧ truthyBool (room_open newRoom) = false
      ∧ length (messages w1) = S (S (length (messages sampleWorld)))
      ∧ closeRoom (closeBy (Some newRoom) (Some "resolved") None) w1
        = (Return tt, w1).
Proof.
  intros p w1.
  assert (closeRoom p sampleWorld = (Return tt, w1)) as Hrun
    by (vm_compute; reflexivity).
  repeat (split; [first [exact Hrun|reflexivity]|]).
  destruct (closeRoom_twice p sampleWorld R1 w1 eq_refl eq_refl eq_refl eq_refl
              Hrun)
    as (newRoom & closeData & m1 & m2 & Hrooms & _ & Hclosed & Hms & _ & _ & Hagain).
  exists newRoom. split_and!.
  - rewrite Hrooms. apply lookup_insert_eq.
  - exact Hclosed.
  - rewrite Hms, length_app. simpl. lia.
  - apply Hagain. reflexivity.
Defined.

(** C7. The failing input: [R1], whose agent was assigned at [4000], is
    closed while the clock shows [4000]. The closure succeeds and the room
    has a servicing agent, so the claim asks for a [serviceTimeDuration] of
    zero seconds; the spread [serviceTimeDuration && { serviceTimeDuration }]
    takes the zero for an absent value and the close data handed to the
    store has no such field. *)
Lemma closeRoom_zero_service_time :
  let p := closeBy (Some R1) None None in
  let w := sampleWorldAt 4000 in
  clock w = 4000%Z
  ∧ room_servedBy R1 = Some (mkServedBy "U1" 4000)
  ∧ fst (closeRoom p w) = Return tt
  ∧ ∃ closeData rest,
      journal (snd (closeRoom p w))
      = LivechatRooms_closeRoomById "R1" closeData :: rest
      ∧ closedAt closeData = 4000%Z
      ∧ serviceTimeDuration closeData = None.
Proof.
  intros p w. split; [reflexivity|]. split; [reflexivity|].
  split; [vm_compute; reflexivity|].
  eexists _, _. split; [vm_compute; reflexivity|]. split; reflexivity.
Qed.


(** C9 on a token that no visitor has, and on the token of [V1] with a room
    that does not exist. *)
Lemma sendTranscript_rejects_witness :
  (visitorByToken sampleWorld "nobody" = None
   ∧ sendTranscript sampleRendering "nobody" "R1" "guest@example.org" None None
       sampleWorld
     = (Throw invalidTokenError, sampleWorld))
  ∧ (is_Some (visitorByToken sampleWorld "tok-1")
     ∧ roomRejected "tok-1" (rooms sampleWorld !! "R9")
     ∧ sendTranscript sampleRendering "tok-1" "R9" "guest@example.org" None None
         sampleWorld
       = (Throw invalidRoomError, sampleWorld)).
Proof.
  split.
  - split; [reflexivity|].
    apply (sendTranscript_rejects sampleRendering "nobody" "R1" "guest@example.org"
             None None sampleWorld). reflexivity.
  - assert (is_Some (visitorByToken sampleWorld "tok-1")) as Hvisitor
      by (by exists V1).
    assert (roomRejected "tok-1" (rooms sampleWorld !! "R9")) as Hroom
      by exact I.
    split; [exact Hvisitor|]. split; [exact Hroom|].
    apply (sendTranscript_rejects sampleRendering "tok-1" "R9" "guest@example.org"
             None None sampleWorld); assumption.
Defined.

(** C10 on a room of [D4] that carries tags and a request with the
    optional fields set. *)
Lemma resolveChatTags_frame_witness :
  let request :=
    mkCloseOptions (Some true) (Some ["b"]) (Some SendToVisitorFalse)
      (Some (mkPdfTranscript "U1")) in
  snd (resolveChatTags R5 (Some request) sampleWorld) = sampleWorld
  ∧ ∃ updated,
      fst (resolveChatTags R5 (Some request) sampleWorld) = Return updated
      ∧ clientAction updated = Some true
      ∧ emailTranscript updated = Some SendToVisitorFalse
      ∧ pdfTranscript updated = Some (mkPdfTranscript "U1").
Proof.
  intros request.
  destruct (resolveChatTags_frame R5 (Some request) sampleWorld) as [Hworld Hframe].
  split; [exact Hworld|].
  destruct (fst (resolveChatTags R5 (Some request) sampleWorld)) as [updated|e] eqn:Hres;
    [|discriminate Hres].
  exists updated. destruct (Hframe updated eq_refl) as (Hc & He & Hp & _).
  split_and!; [reflexivity|exact Hc|exact He|exact Hp].
Defined.

(** C10 as stated fails: when the request supplies an empty tag list and
    neither the room nor a department adds a tag, the merged tag set is
    empty and the result carries the empty list of the request, not an
    absent field. *)
Lemma resolveChatTags_keeps_empty_list :
  let request := mkCloseOptions None (Some []) None None in
  mergedTags sampleWorld R1 request = []
  ∧ ∃ updated,
      fst (resolveChatTags R1 (Some request) sampleWorld) = Return updated
      ∧ tags updated = Some []
      ∧ tags updated ≠ None.
Proof.
  intros request. split; [reflexivity|].
  eexists. split; [reflexivity|]. split; [reflexivity|discriminate].
Qed.

(** * Further properties of the code *)

(** ** Availability: what the fallback walk computes *)

Local Close Scope string_scope.

Section fallback_walk.
Context (dir : Directory).

Lemma hops_S_fallback n d f :
  fallbackOf dir d = Some f → hops dir (S n) d = hops dir n f.
Proof. intros Hf. simpl. by rewrite Hf. Qed.

(** An online department [k] hops away is found within [k + 1] nested
    calls. *)
Lemma checkOnlineAgents_reaches k d x :
  truthyString d = true →
  hops dir k d = Some x →
  checkOnlineForDepartment dir x = true →
  checkOnlineAgents (S k) dir (Some d) None false = Some true.
Proof.
  revert d. induction k as [|k IH]; intros d Hd Hk Hon.
  - simpl in Hk. injection Hk as ->. by apply checkOnlineAgents_online.
  - destruct (checkOnlineForDepartment dir d) eqn:Hd_on.
    + by apply checkOnlineAgents_online.
    + simpl in Hk. destruct (fallbackOf dir d) as [f|] eqn:Hf; [|done].
      rewrite (checkOnlineAgents_hop dir (S k) d f) by done.
      apply IH; [by eapply fallbackOf_truthy|done|done].
Qed.

(** A result [true] comes from an online department on the walk. *)
Lemma checkOnlineAgents_true_inv fuel d :
  truthyString d = true →
  checkOnlineAgents fuel dir (Some d) None false = Some true →
  ∃ k x, hops dir k d = Some x ∧ checkOnlineForDepartment dir x = true.
Proof.
  revert d. induction fuel as [|fuel IH]; intros d Hd Hrun; [done|].
  destruct (checkOnlineForDepartment dir d) eqn:Hon.
  - by exists 0, d.
  - destruct (fallbackOf dir d) as [f|] eqn:Hf.
    + rewrite (checkOnlineAgents_hop dir fuel d f) in Hrun by done.
      destruct (IH f (fallbackOf_truthy dir d f Hf) Hrun) as (k & x & Hk & Hx).
      exists (S k), x. by rewrite (hops_S_fallback k d f).
    + by rewrite checkOnlineAgents_last in Hrun.
Qed.

(** A result [false] comes from a walk that ends, with nobody online. *)
Lemma checkOnlineAgents_false_inv fuel d :
  truthyString d = true →
  checkOnlineAgents fuel dir (Some d) None false = Some false →
  ∃ l, Chain dir d l ∧ ∀ x, x ∈ l → checkOnlineForDepartment dir x = false.
Proof.
  revert d. induction fuel as [|fuel IH]; intros d Hd Hrun; [done|].
  destruct (checkOnlineForDepartment dir d) eqn:Hon.
  - by rewrite checkOnlineAgents_online in Hrun.
  - destruct (fallbackOf dir d) as [f|] eqn:Hf.
    + rewrite (checkOnlineAgents_hop dir fuel d f) in Hrun by done.
      destruct (IH f (fallbackOf_truthy dir d f Hf) Hrun) as (l & Hchain & Hoff).
      exists (d :: l). split; [by eapply Chain_hop|].
      intros x [->|Hx]%elem_of_cons; [done|by apply Hoff].
    + exists [d]. split; [by apply Chain_last|].
      by intros x ->%list_elem_of_singleton.
Qed.

End fallback_walk.

(** X1. [checkOnlineAgents] on a department (no forced agent, fallback not
    skipped) returns [true] exactly when some department reachable along
    the fallback references reports an online agent, whether or not the
    references form a cycle. *)
Theorem checkOnlineAgents_true_iff dir d :
  truthyString d = true →
  (∃ fuel, checkOnlineAgents fuel dir (Some d) None false = Some true)
  ↔ (∃ k x, hops dir k d = Some x ∧ checkOnlineForDepartment dir x = true).
Proof.
  intros Hd. split.
  - intros [fuel Hrun]. by eapply checkOnlineAgents_true_inv.
  - intros (k & x & Hk & Hon). exists (S k).
    by eapply checkOnlineAgents_reaches.
Qed.

(** X2. [checkOnlineAgents] on a department (no forced agent, fallback not
    skipped) returns [false] exactly when the fallback references from it
    end at a department without fallback and no department on the way
    reports an online agent. *)
Theorem checkOnlineAgents_false_iff dir d :
  truthyString d = true →
  (∃ fuel, checkOnlineAgents fuel dir (Some d) None false = Some false)
  ↔ (∃ l, Chain dir d l ∧ ∀ x, x ∈ l → checkOnlineForDepartment dir x = false).
Proof.
  intros Hd. split.
  - intros [fuel Hrun]. by eapply checkOnlineAgents_false_inv.
  - intros (l & Hchain & Hoff). exists (length l).
    rewrite (checkOnlineAgents_chain dir d l Hchain Hd) by done.
    f_equal. apply not_true_iff_false. rewrite existsb_exists.
    intros (x & Hx & Hon). apply list_elem_of_In in Hx.
    rewrite (Hoff x Hx) in Hon. done.
Qed.

(** ** Availability: [online] *)

(** X3. On a fallback cycle none of whose departments has an online agent,
    [online] returns [true], without any nested call, when chats are
    accepted without agents and the setting is not skipped, or when bots are
    assigned new conversations and the department has a bot; when neither
    holds it never returns, like the agent check it delegates to. *)
Theorem online_on_cycle R d skipNo :
  onCycle (routing_directory R) d →
  (∀ k x, hops (routing_directory R) k d = Some x →
          checkOnlineForDepartment (routing_directory R) x = false) →
  let override := negb skipNo && Livechat_accept_chats_with_no_agents R in
  let bot :=
    Livechat_assign_new_conversation_to_bot R
    && bool_decide (0 < default 0 (departmentBots R !! d)) in
  (override || bot = true → ∀ fuel, online fuel R (Some d) skipNo false = Some true)
  ∧ (override || bot = false → ∀ fuel, online fuel R (Some d) skipNo false = None).
Proof.
  intros Hcyc Hoff override bot.
  assert (truthyString d = true) as Hd.
  { destruct Hcyc as (n & Hn & Hback). by eapply hops_truthy. }
  assert (∀ fuel,
            checkOnlineAgents fuel (routing_directory R) (Some d) None false = None)
    as Hdiv.
  { destruct Hcyc as (n & Hn & Hback).
    intros fuel.
    apply (checkOnlineAgents_diverges (routing_directory R) d
             (ex_intro _ n (conj Hn Hback)) Hoff fuel n d Hn Hback). }
  subst override bot. unfold online, onlineBotFound, getBotAgents. rewrite Hd.
  split; intros Hcase fuel; rewrite Hdiv;
    destruct (negb skipNo && Livechat_accept_chats_with_no_agents R);
    simpl in *; try done;
    destruct (Livechat_assign_new_conversation_to_bot R); simpl in *; try done;
    destruct (departmentBots R !! d) as [n|]; simpl in *; try done;
    by rewrite Hcase.
Qed.

(** X4. Whatever the settings and the bots, [online] on a department
    returns [true] as soon as some department reachable along the fallback
    references, [k] hops away, reports an online agent; [k + 1] nested calls
    are enough. *)
Theorem online_reaches_fallback R d skipNo k x :
  truthyString d = true →
  hops (routing_directory R) k d = Some x →
  checkOnlineForDepartment (routing_directory R) x = true →
  online (S k) R (Some d) skipNo false = Some true.
Proof.
  intros Hd Hk Hon. unfold online.
  rewrite (checkOnlineAgents_reaches (routing_directory R) k d x Hd Hk Hon).
  by destruct (negb skipNo && _), (onlineBotFound R (Some d)).
Qed.

(** ** Availability: [getRequiredDepartment] *)

Lemma getRequiredDepartment_cons dir dept rest onlineRequired :
  getRequiredDepartment dir (dept :: rest) onlineRequired
  = if decide (qualifies dir onlineRequired dept) then Some dept
    else getRequiredDepartment dir rest onlineRequired.
Proof.
  simpl. destruct (decide (qualifies dir onlineRequired dept)) as [[Hshow Hon]|Hnq].
  - rewrite Hshow. simpl. destruct onlineRequired; simpl; [|done].
    by rewrite Hon.
  - destruct (truthyBool (showOnRegistration dept)) eqn:Hshow; simpl; [|done].
    destruct onlineRequired; simpl.
    + destruct (hasOnlineAgents dir (reg_id dept)) eqn:Hon; [|done].
      exfalso. apply Hnq. by split.
    + exfalso. apply Hnq. by split.
Qed.

Lemma getRequiredDepartment_elem dir departments onlineRequired dept :
  getRequiredDepartment dir departments onlineRequired = Some dept →
  dept ∈ departments.
Proof.
  induction departments as [|d rest IH]; [done|].
  rewrite getRequiredDepartment_cons. case_decide.
  - intros [= <-]. apply elem_of_cons. by left.
  - intros Hrun. apply elem_of_cons. right. by apply IH.
Qed.

(** X5. [getRequiredDepartment] returns the first department of the cursor
    that is shown on registration and, when online agents are required, has
    one: a returned department passes the test and every department before
    it fails it; nothing is returned exactly when no department passes. *)
Theorem getRequiredDepartment_first dir departments onlineRequired :
  (∀ dept,
     getRequiredDepartment dir departments onlineRequired = Some dept
     ↔ ∃ before after,
         departments = before ++ dept :: after
         ∧ qualifies dir onlineRequired dept
         ∧ ∀ x, x ∈ before → ¬ qualifies dir onlineRequired x)
  ∧ (getRequiredDepartment dir departments onlineRequired = None
     ↔ ∀ x, x ∈ departments → ¬ qualifies dir onlineRequired x).
Proof.
  induction departments as [|d rest [IHsome IHnone]].
  - split.
    + intros dept. split; [done|]. intros (before & after & Heq & _).
      by destruct before.
    + split; [|done]. intros _ x Hx. by apply elem_of_nil in Hx.
  - split.
    + intros dept. rewrite getRequiredDepartment_cons.
      destruct (decide (qualifies dir onlineRequired d)) as [Hq|Hnq].
      * split.
        -- intros [= <-]. exists [], rest. split_and!; [done|done|].
           intros x Hx. by apply elem_of_nil in Hx.
        -- intros ([|b before] & after & Heq & Hqual & Hfirst).
           ++ simpl in Heq. by injection Heq as <- _.
           ++ simpl in Heq. injection Heq as <- _.
              exfalso. apply (Hfirst d); [apply elem_of_cons; by left|done].
      * rewrite IHsome. split.
        -- intros (before & after & -> & Hqual & Hfirst).
           exists (d :: before), after. split_and!; [done|done|].
           intros x [->|Hx]%elem_of_cons; [done|by apply Hfirst].
        -- intros ([|b before] & after & Heq & Hqual & Hfirst).
           ++ simpl in Heq. injection Heq as <- _. done.
           ++ simpl in Heq. injection Heq as <- Hrest.
              exists before, after. split_and!; [done|done|].
              intros x Hx. apply Hfirst. apply elem_of_cons. by right.
    + rewrite getRequiredDepartment_cons.
      destruct (decide (qualifies dir onlineRequired d)) as [Hq|Hnq].
      * split; [done|]. intros Hall. exfalso.
        apply (Hall d); [apply elem_of_cons; by left|done].
      * rewrite IHnone. split.
        -- intros Hall x [->|Hx]%elem_of_cons; [done|by apply Hall].
        -- intros Hall x Hx. apply Hall. apply elem_of_cons. by right.
Qed.

(** X6. Dropping the online requirement can only move the answer of
    [getRequiredDepartment] towards the front of the cursor: the department
    returned when online agents are required is preceded, or equalled, by
    the one returned when they are not. *)
Theorem getRequiredDepartment_relaxed dir departments dept :
  getRequiredDepartment dir departments true = Some dept →
  ∃ dept' before after,
    getRequiredDepartment dir departments false = Some dept'
    ∧ departments = before ++ dept' :: after
    ∧ (dept' = dept ∨ dept ∈ after).
Proof.
  induction departments as [|d rest IH]; [done|].
  rewrite !getRequiredDepartment_cons.
  destruct (decide (qualifies dir true d)) as [Hq|Hnq].
  - intros [= <-].
    rewrite decide_True by (destruct Hq as [Hshow _]; by split).
    exists d, [], rest. split_and!; [done|done|by left].
  - intros Hrun. destruct (decide (qualifies dir false d)) as [Hq'|Hnq'].
    + exists d, [], rest. split_and!; [done|done|]. right.
      destruct (IH Hrun) as (dept' & before & after & _ & Heq & Hpos).
      by eapply getRequiredDepartment_elem.
    + destruct (IH Hrun) as (dept' & before & after & Hrun' & -> & Hpos).
      exists dept', (d :: before), after. by split_and!.
Qed.

(** ** The further properties of availability on the sample data *)

Local Open Scope string_scope.

(** X1 on [D2], whose fallback [D3] has an online agent. *)
Lemma checkOnlineAgents_true_iff_witness :
  truthyString "D2" = true
  ∧ (∃ k x, hops sampleDirectory k "D2" = Some x
            ∧ checkOnlineForDepartment sampleDirectory x = true)
  ∧ ∃ fuel, checkOnlineAgents fuel sampleDirectory (Some "D2") None false = Some true.
Proof.
  assert (∃ k x, hops sampleDirectory k "D2" = Some x
                 ∧ checkOnlineForDepartment sampleDirectory x = true) as Hreach
    by (exists 1%nat, "D3"; split; reflexivity).
  split; [reflexivity|]. split; [exact Hreach|].
  apply (checkOnlineAgents_true_iff sampleDirectory "D2" eq_refl). exact Hreach.
Defined.

(** X2 on [D1], which has no fallback and no online agent. *)
Lemma checkOnlineAgents_false_iff_witness :
  truthyString "D1" = true
  ∧ Chain sampleDirectory "D1" ["D1"]
  ∧ (∀ x, x ∈ ["D1"] → checkOnlineForDepartment sampleDirectory x = false)
  ∧ ∃ fuel, checkOnlineAgents fuel sampleDirectory (Some "D1") None false = Some false.
Proof.
  assert (Chain sampleDirectory "D1" ["D1"]) as Hchain
    by (apply Chain_last; reflexivity).
  assert (∀ x, x ∈ ["D1"] → checkOnlineForDepartment sampleDirectory x = false)
    as Hoff by (intros x ->%list_elem_of_singleton; reflexivity).
  split; [reflexivity|]. split; [exact Hchain|]. split; [exact Hoff|].
  apply (checkOnlineAgents_false_iff sampleDirectory "D1" eq_refl).
  exists ["D1"]. split; [exact Hchain|exact Hoff].
Defined.

(** X3 on the two departments that fall back to each other, with and
    without the setting that accepts chats without agents. *)
Lemma online_on_cycle_witness :
  onCycle cyclicDirectory "D1"
  ∧ (∀ k x, hops cyclicDirectory k "D1" = Some x →
            checkOnlineForDepartment cyclicDirectory x = false)
  ∧ (∀ fuel, online fuel (cyclicRouting true) (Some "D1") false false = Some true)
  ∧ (∀ fuel, online fuel (cyclicRouting false) (Some "D1") false false = None).
Proof.
  split; [exact cyclicDirectory_onCycle|].
  split; [intros k x _; exact (cyclicDirectory_offline x)|].
  split.
  - apply (online_on_cycle (cyclicRouting true) "D1" false
             cyclicDirectory_onCycle (λ k x _, cyclicDirectory_offline x)).
    reflexivity.
  - apply (online_on_cycle (cyclicRouting false) "D1" false
             cyclicDirectory_onCycle (λ k x _, cyclicDirectory_offline x)).
    reflexivity.
Defined.

(** X4 on [D2], which has neither a bot nor an agent online: the answer
    comes from the agent of [D3], one hop away. With the fallback check
    skipped the answer is [false], and one nested call is not enough. *)
Lemma online_reaches_fallback_witness :
  truthyString "D2" = true
  ∧ hops (routing_directory sampleRouting) 1 "D2" = Some "D3"
  ∧ checkOnlineForDepartment (routing_directory sampleRouting) "D3" = true
  ∧ Livechat_accept_chats_with_no_agents sampleRouting = false
  ∧ onlineBotFound sampleRouting (Some "D2") = false
  ∧ checkOnlineForDepartment (routing_directory sampleRouting) "D2" = false
  ∧ online 2 sampleRouting (Some "D2") false true = Some false
  ∧ online 1 sampleRouting (Some "D2") false false = None
  ∧ online 2 sampleRouting (Some "D2") false false = Some true.
Proof.
  do 8 (split; [reflexivity|]).
  apply (online_reaches_fallback sampleRouting "D2" false 1 "D3"); reflexivity.
Defined.

(** X5 on the sample cursor: [D1] is not shown on registration, [D2] has
    nobody online, [D3] is returned. *)
Lemma getRequiredDepartment_first_witness :
  getRequiredDepartment sampleDirectory sampleRegistration true
  = Some (mkRegistrationDepartment "D3" (Some true))
  ∧ getRequiredDepartment sampleDirectory [] true = None.
Proof.
  split.
  - apply (proj1 (getRequiredDepartment_first sampleDirectory sampleRegistration true)).
    exists [mkRegistrationDepartment "D1" None;
            mkRegistrationDepartment "D2" (Some true)],
           [mkRegistrationDepartment "D4" (Some true)].
    split; [reflexivity|]. split; [split; reflexivity|].
    intros x Hx [Hshow Hon].
    apply elem_of_cons in Hx as [->|Hx]; [discriminate Hshow|].
    apply list_elem_of_singleton in Hx as ->.
    specialize (Hon eq_refl). discriminate Hon.
  - apply (proj2 (getRequiredDepartment_first sampleDirectory [] true)).
    intros x Hx. by apply elem_of_nil in Hx.
Defined.

(** X6 on the sample cursor: without the online requirement the answer is
    [D2], which precedes [D3]. *)
Lemma getRequiredDepartment_relaxed_witness :
  getRequiredDepartment sampleDirectory sampleRegistration true
  = Some (mkRegistrationDepartment "D3" (Some true))
  ∧ ∃ dept' before after,
      getRequiredDepartment sampleDirectory sampleRegistration false = Some dept'
      ∧ sampleRegistration = (before ++ dept' :: after)%list
      ∧ (dept' = mkRegistrationDepartment "D3" (Some true)
         ∨ mkRegistrationDepartment "D3" (Some true) ∈ after).
Proof.
  split; [reflexivity|].
  apply (getRequiredDepartment_relaxed sampleDirectory sampleRegistration).
  reflexivity.
Defined.
(** ** Tag policy resolver: [concatUnique] and the resolved options *)

Local Close Scope string_scope.

Lemma setAddAll_extends seen l :
  ∃ r, setAddAll seen l = seen ++ r ∧ sublist r l.
Proof.
  revert seen. induction l as [|y l IH]; intros seen; simpl.
  - exists []. by rewrite app_nil_r.
  - destruct (decide (y ∈ seen)) as [Hin|Hout].
    + destruct (IH seen) as (r & -> & Hsub). exists r. split; [done|].
      by apply sublist_cons.
    + destruct (IH (seen ++ [y])) as (r & -> & Hsub). exists (y :: r).
      split; [by rewrite <- app_assoc|]. by apply sublist_skip.
Qed.

(** Elements the set already holds are not added again. *)
Lemma setAddAll_absorb seen l :
  (∀ x, x ∈ l → x ∈ seen) → setAddAll seen l = seen.
Proof.
  induction l as [|y l IH]; intros Hall; simpl; [done|].
  rewrite decide_True by (apply Hall, elem_of_cons; by left).
  apply IH. intros x Hx. apply Hall, elem_of_cons. by right.
Qed.

(** A duplicate-free list goes through the set unchanged. *)
Lemma setAddAll_NoDup_id seen l :
  NoDup (seen ++ l) → setAddAll seen l = seen ++ l.
Proof.
  revert seen. induction l as [|y l IH]; intros seen Hnd; simpl.
  - by rewrite app_nil_r.
  - apply NoDup_app in Hnd as (Hseen & Hdisj & Hl).
    rewrite decide_False
      by (intros Hin; apply (Hdisj y Hin), elem_of_cons; by left).
    rewrite IH; [by rewrite <- app_assoc|].
    rewrite <- app_assoc. simpl. apply NoDup_app. by split_and!.
Qed.

(** Adding a concatenation is adding its parts one after the other. *)
Lemma setAddAll_app seen l1 l2 :
  setAddAll seen (l1 ++ l2) = setAddAll (setAddAll seen l1) l2.
Proof.
  revert seen. induction l1 as [|y l1 IH]; intros seen; simpl; [done|].
  destruct (decide (y ∈ seen)); apply IH.
Qed.

(** The set keeps every element where it occurs first: it is the list with
    the later occurrences removed. [remove_dups] removes the earlier ones,
    hence the two reversals. *)
Lemma setAddAll_keep_first l :
  setAddAll [] l = reverse (remove_dups (reverse l)).
Proof.
  induction l as [|x l IH] using rev_ind; [done|].
  rewrite setAddAll_app, reverse_snoc. simpl. rewrite IH.
  destruct (decide (x ∈ reverse (remove_dups (reverse l)))) as [Hin|Hout];
    rewrite elem_of_reverse, elem_of_remove_dups in *;
    destruct (decide_rel elem_of x (reverse l)) as [Hin'|Hout'];
    try done.
  by rewrite reverse_cons.
Qed.

Lemma concatUnique_absorb m b :
  NoDup m → (∀ x, x ∈ tagList b → x ∈ m) → concatUnique [Some m; b] = m.
Proof.
  intros Hnd Hsub. unfold concatUnique.
  replace (concat (omap id [Some m; b])) with (m ++ tagList b)
    by (destruct b; simpl; by rewrite ?app_nil_r).
  destruct (setAddAll_extends [] m) as (r & Hr & _). simpl in Hr.
  assert (setAddAll [] m = m) as Hm
    by (rewrite (setAddAll_NoDup_id [] m); done).
  clear r Hr.
  assert (∀ seen l1 l2, setAddAll seen (l1 ++ l2) = setAddAll (setAddAll seen l1) l2)
    as Happ.
  { intros seen l1. revert seen. induction l1 as [|y l1 IH]; intros seen l2; simpl;
      [done|]. destruct (decide (y ∈ seen)); apply IH. }
  rewrite Happ, Hm. by apply setAddAll_absorb.
Qed.

Lemma elem_of_concat (x : string) (ls : list (list string)) :
  x ∈ concat ls ↔ ∃ l, x ∈ l ∧ l ∈ ls.
Proof.
  induction ls as [|l ls IH]; simpl.
  - split; [by intros ?%elem_of_nil|]. by intros (l & _ & ?%elem_of_nil).
  - rewrite elem_of_app, IH. split.
    + intros [Hx|(l' & Hx & Hl')].
      * exists l. split; [done|]. apply elem_of_cons. by left.
      * exists l'. split; [done|]. apply elem_of_cons. by right.
    + intros (l' & Hx & [->|Hl']%elem_of_cons); [by left|].
      right. by exists l'.
Qed.

(** X7. [concatUnique] yields a duplicate-free array with exactly the
    elements of the arrays that are present, in the order of their first
    occurrence: it is a sub-list of the concatenation, and it is the
    concatenation with every occurrence of an element after its first one
    removed, so that an element that occurs first at some place comes right
    after what the part before it yields. Arrays given after others only
    append to the result, and applying [concatUnique] to its own result
    changes nothing. *)
Theorem concatUnique_set arrays :
  NoDup (concatUnique arrays)
  ∧ (∀ x, x ∈ concatUnique arrays ↔ ∃ a, Some a ∈ arrays ∧ x ∈ a)
  ∧ sublist (concatUnique arrays) (concat (omap id arrays))
  ∧ concatUnique [Some (concatUnique arrays)] = concatUnique arrays
  ∧ concatUnique arrays
    = reverse (remove_dups (reverse (concat (omap id arrays))))
  ∧ (∀ l1 x l2,
       concat (omap id arrays) = l1 ++ x :: l2 → x ∉ l1 →
       ∃ r, concatUnique arrays = concatUnique [Some l1] ++ x :: r)
  ∧ (∀ more, concatUnique arrays `prefix_of` concatUnique (arrays ++ more)).
Proof.
  split_and!.
  - apply concatUnique_NoDup.
  - intros x. unfold concatUnique. rewrite setAddAll_elem, elem_of_nil.
    rewrite elem_of_concat. split.
    + intros [[]|(a & Hx & Ha)]. exists a. split; [|done].
      apply list_elem_of_omap in Ha as (o & Ho & Hid). simpl in Hid. by subst o.
    + intros (a & Ha & Hx). right. exists a. split; [done|].
      apply list_elem_of_omap. by exists (Some a).
  - unfold concatUnique.
    destruct (setAddAll_extends [] (concat (omap id arrays))) as (r & -> & Hsub).
    done.
  - change (concatUnique [Some (concatUnique arrays); None] = concatUnique arrays).
    apply concatUnique_absorb; [apply concatUnique_NoDup|].
    intros x Hx. by apply elem_of_nil in Hx.
  - apply setAddAll_keep_first.
  - intros l1 x l2 Heq Hx. unfold concatUnique. rewrite Heq. simpl.
    rewrite app_nil_r, setAddAll_app. simpl.
    rewrite decide_False
      by (rewrite setAddAll_elem, elem_of_nil; by intros [[]|?]).
    destruct (setAddAll_extends (setAddAll [] l1 ++ [x]) l2) as (r & -> & _).
    exists r. by rewrite <- app_assoc.
  - intros more. unfold concatUnique.
    rewrite omap_app, concat_app, setAddAll_app.
    destruct (setAddAll_extends (setAddAll [] (concat (omap id arrays)))
                (concat (omap id more))) as (r & -> & _).
    by exists r.
Qed.

(** X7 on arrays that repeat elements within and across them: [a] and [b]
    stay where they occur first, the absent array is skipped. *)
Lemma concatUnique_set_witness :
  concatUnique [Some ["a"; "b"; "a"]; None; Some ["c"; "b"; "d"]]%string
  = ["a"; "b"; "c"; "d"]%string.
Proof.
  destruct (concatUnique_set [Some ["a"; "b"; "a"]; None; Some ["c"; "b"; "d"]]%string)
    as (_ & _ & _ & _ & Hfirst & _).
  rewrite Hfirst. vm_compute. reflexivity.
Defined.

(** A failure of the resolver is a violation of the policy of a found
    department. *)
Lemma resolveChatTags_throw_inv room options w e :
  fst (resolveChatTags room options w) = Throw e →
  e = tagsError
  ∧ ∃ did dep,
      room_departmentId room = Some did
      ∧ truthyString did = true
      ∧ findDepartmentById (directory w) did = Some dep
      ∧ truthyBool (requestTagBeforeClosingChat dep) = true
      ∧ tagPolicyViolated room (default noOptions options) dep.
Proof.
  intros Hthrow.
  destruct (room_departmentId room) as [did|] eqn:Hdid;
    [|by unfold resolveChatTags in Hthrow; rewrite Hdid in Hthrow].
  destruct (truthyString did) eqn:Htruthy;
    [|by unfold resolveChatTags in Hthrow; rewrite Hdid, Htruthy in Hthrow].
  destruct (findDepartmentById (directory w) did) as [dep|] eqn:Hdep;
    [|by unfold resolveChatTags, LivechatDepartment_findOneById, bind, gets
           in Hthrow; rewrite Hdid, Htruthy, Hdep in Hthrow].
  destruct (truthyBool (requestTagBeforeClosingChat dep)) eqn:Hreq;
    [|by unfold resolveChatTags, LivechatDepartment_findOneById, bind, gets
           in Hthrow; rewrite Hdid, Htruthy, Hdep, Hreq in Hthrow].
  destruct (decide (tagPolicyViolated room (default noOptions options) dep))
    as [Hviol|Hok].
  - rewrite (resolveChatTags_violation w room did dep) in Hthrow by done.
    injection Hthrow as <-. split; [done|]. by exists did, dep.
  - destruct (resolveChatTags_compliant w room did dep Hdid Htruthy Hdep
                options Hreq Hok) as [updated Hret].
    by rewrite Hret in Hthrow.
Qed.

(** X8. [resolveChatTags] fails in one case only, and then with the
    tag-policy error: the room names a department that is found, the
    department requires a tag before closing, and either the request is
    client-initiated while neither it nor the room carries a tag, or the
    department has no closing tag. A room without department, with an
    unknown department, or with a department that does not require tags
    never makes it fail. *)
Theorem resolveChatTags_throws room options w e :
  fst (resolveChatTags room options w) = Throw e
  ↔ e = tagsError
    ∧ ∃ did dep,
        room_departmentId room = Some did
        ∧ truthyString did = true
        ∧ findDepartmentById (directory w) did = Some dep
        ∧ truthyBool (requestTagBeforeClosingChat dep) = true
        ∧ tagPolicyViolated room (default noOptions options) dep.
Proof.
  split; [apply resolveChatTags_throw_inv|].
  intros (-> & did & dep & Hdid & Htruthy & Hdep & Hreq & Hviol).
  by rewrite (resolveChatTags_violation w room did dep).
Qed.

Lemma spreadTags_fixed options m :
  tags options = Some m → spreadTags options m = options.
Proof. intros Htags. destruct options, m; simpl in *; by subst. Qed.

Lemma mergedTags_NoDup w room options : NoDup (mergedTags w room options).
Proof. unfold mergedTags. repeat case_match; apply concatUnique_NoDup. Qed.

(** The merged tags hold the tags of the request and of the room. *)
Lemma mergedTags_holds w room options x :
  x ∈ tagList (tags options) ∨ x ∈ tagList (room_tags room) →
  x ∈ mergedTags w room options.
Proof.
  intros Hx. apply concatUnique_pair in Hx. unfold mergedTags.
  repeat case_match; try done. apply concatUnique_pair. by left.
Qed.

(** Merging again, starting from the merged tags, gives the merged tags. *)
Lemma mergedTags_again w room options updated :
  clientAction updated = clientAction options →
  tags updated = Some (mergedTags w room options) →
  mergedTags w room updated = mergedTags w room options.
Proof.
  intros _ Htags.
  assert (concatUnique [tags updated; room_tags room]
          = mergedTags w room options) as Hroom.
  { rewrite Htags. apply concatUnique_absorb; [apply mergedTags_NoDup|].
    intros x Hx. apply mergedTags_holds. by right. }
  unfold mergedTags at 1. rewrite Hroom.
  destruct (room_departmentId room) as [did|] eqn:Hdid; [|done].
  destruct (truthyString did) eqn:Htruthy; [|done].
  destruct (findDepartmentById (directory w) did) as [dep|] eqn:Hdep; [|done].
  apply concatUnique_absorb; [apply mergedTags_NoDup|].
  intros x Hx. unfold mergedTags. rewrite Hdid, Htruthy, Hdep.
  apply concatUnique_pair. by right.
Qed.

(** X9. Resolving is idempotent: when [resolveChatTags] returns updated
    options, resolving the same room again with those options returns them
    unchanged. *)
Theorem resolveChatTags_idempotent room options w updated :
  fst (resolveChatTags room options w) = Return updated →
  resolveChatTags room (Some updated) w = (Return updated, w).
Proof.
  intros Hfirst.
  pose proof (resolveChatTags_return room options w updated Hfirst) as Hupd.
  destruct (mergedTags w room (default noOptions options)) as [|t ts] eqn:Hmerged.
  - (* nothing was merged: the options are those of the request *)
    assert (updated = default noOptions options) as Heq by (by rewrite Hupd).
    clear Hupd. rewrite Heq in Hfirst |- *.
    change (resolveChatTags room options w
            = (Return (default noOptions options), w)).
    pose proof (resolveChatTags_world room options w) as Hworld.
    destruct (resolveChatTags room options w) as [o w']. simpl in *. congruence.
  - assert (tags updated = Some (t :: ts)) as Htags by (by subst updated).
    assert (clientAction updated = clientAction (default noOptions options))
      as Hclient by (by subst updated).
    assert (mergedTags w room updated = t :: ts) as Hagain.
    { rewrite <- Hmerged. apply mergedTags_again; [done|]. by rewrite Hmerged. }
    pose proof (resolveChatTags_world room (Some updated) w) as Hworld.
    destruct (resolveChatTags room (Some updated) w) as [[updated'|e] w'] eqn:Hsecond;
      simpl in Hworld; subst w'.
    + f_equal. f_equal.
      rewrite (resolveChatTags_return room (Some updated) w updated')
        by (by rewrite Hsecond).
      simpl. rewrite Hagain. by apply spreadTags_fixed.
    + exfalso.
      assert (fst (resolveChatTags room (Some updated) w) = Throw e) as Hthrow
        by (by rewrite Hsecond).
      apply resolveChatTags_throw_inv in Hthrow
        as (_ & did & dep & Hdid & Htruthy & Hdep & Hreq & Hviol).
      simpl in Hviol.
      destruct (decide (tagPolicyViolated room (default noOptions options) dep))
        as [Hviol1|Hok1].
      * rewrite (resolveChatTags_violation w room did dep) in Hfirst by done.
        done.
      * apply Hok1. destruct Hviol as [(Hc & _ & Hnil)|Hdept]; [|by right].
        rewrite Htags in Hnil. done.
Qed.

(** The tags of the spread options are the merged tags whenever these hold
    the tags of the request. *)
Lemma spreadTags_tagList options m :
  (∀ x, x ∈ tagList (tags options) → x ∈ m) →
  tagList (tags (spreadTags options m)) = m.
Proof.
  intros Hsub. rewrite spreadTags_tags. destruct m as [|t ts]; [|done].
  apply elem_of_nil_inv. intros x Hx. by apply Hsub, elem_of_nil in Hx.
Qed.

(** X10. For a room that names no department, an empty department id, or a
    department that is not found, [resolveChatTags] always returns, and the
    resolved tags are the duplicate-free union of the tags of the room and
    of the request. *)
Theorem resolveChatTags_without_department room options w :
  (∀ did, room_departmentId room = Some did → truthyString did = true →
          findDepartmentById (directory w) did = None) →
  ∃ updated,
    resolveChatTags room options w = (Return updated, w)
    ∧ NoDup (tagList (tags updated))
    ∧ ∀ x, x ∈ tagList (tags updated)
           ↔ x ∈ tagList (room_tags room)
             ∨ x ∈ tagList (tags (default noOptions options)).
Proof.
  intros Hnone.
  pose proof (resolveChatTags_world room options w) as Hworld.
  destruct (resolveChatTags room options w) as [[updated|e] w'] eqn:Hrun;
    simpl in Hworld; subst w'.
  - exists updated. split; [done|].
    rewrite (resolveChatTags_return room options w updated) by (by rewrite Hrun).
    assert (mergedTags w room (default noOptions options)
            = concatUnique [tags (default noOptions options); room_tags room])
      as Hmerged.
    { unfold mergedTags.
      destruct (room_departmentId room) as [did|] eqn:Hdid; [|done].
      destruct (truthyString did) eqn:Htruthy; [|done].
      by rewrite (Hnone did eq_refl Htruthy). }
    rewrite spreadTags_tagList
      by (intros x Hx; apply mergedTags_holds; by left).
    split; [apply mergedTags_NoDup|].
    intros x. rewrite Hmerged, concatUnique_pair. tauto.
  - exfalso.
    assert (fst (resolveChatTags room options w) = Throw e) as Hthrow
      by (by rewrite Hrun).
    apply resolveChatTags_throw_inv in Hthrow
      as (_ & did & dep & Hdid & Htruthy & Hdep & _).
    by rewrite (Hnone did Hdid Htruthy) in Hdep.
Qed.

(** X11. When the department of the room requires a tag before closing and
    [resolveChatTags] returns, the department has closing tags and the
    resolved options carry a non-empty tag list that contains every one of
    them. *)
Theorem resolveChatTags_policy_tags room options w did dep updated :
  room_departmentId room = Some did →
  truthyString did = true →
  findDepartmentById (directory w) did = Some dep →
  truthyBool (requestTagBeforeClosingChat dep) = true →
  fst (resolveChatTags room options w) = Return updated →
  ∃ ts, tags updated = Some ts
        ∧ ts ≠ []
        ∧ tagList (chatClosingTags dep) ≠ []
        ∧ ∀ x, x ∈ tagList (chatClosingTags dep) → x ∈ ts.
Proof.
  intros Hdid Htruthy Hdep Hreq Hrun.
  assert (tagList (chatClosingTags dep) ≠ []) as Hclosing.
  { intros Hnil.
    rewrite (resolveChatTags_violation w room did dep) in Hrun; [done..|].
    by right. }
  assert (∀ x, x ∈ tagList (chatClosingTags dep) →
               x ∈ mergedTags w room (default noOptions options)) as Hholds.
  { intros x Hx. unfold mergedTags. rewrite Hdid, Htruthy, Hdep.
    apply concatUnique_pair. by right. }
  rewrite (resolveChatTags_return room options w updated Hrun).
  rewrite spreadTags_tags.
  destruct (mergedTags w room (default noOptions options)) as [|t ts] eqn:Hmerged.
  - exfalso. destruct (tagList (chatClosingTags dep)) as [|c cs]; [done|].
    assert (c ∈ @nil string) as Hc
      by (apply Hholds, elem_of_cons; by left).
    by apply elem_of_nil in Hc.
  - exists (t :: ts). by split_and!.
Qed.

(** ** The further properties of the tag resolver on the sample data *)

Local Open Scope string_scope.

(** X8 on [R2], whose department requires tags and has none configured. *)
Lemma resolveChatTags_throws_witness :
  fst (resolveChatTags R2 (Some (clientRequest None)) sampleWorld) = Throw tagsError.
Proof.
  apply (resolveChatTags_throws R2 (Some (clientRequest None)) sampleWorld tagsError).
  split; [reflexivity|]. exists "D1", D1.
  repeat (split; [reflexivity|]). right. reflexivity.
Defined.

(** X9 on [R5] and a request with tags [b], [c]. *)
Lemma resolveChatTags_idempotent_witness :
  let request := mkCloseOptions None (Some ["b"; "c"]) None None in
  let updated := mkCloseOptions None (Some ["b"; "c"; "a"; "billing"]) None None in
  fst (resolveChatTags R5 (Some request) sampleWorld) = Return updated
  ∧ resolveChatTags R5 (Some updated) sampleWorld = (Return updated, sampleWorld).
Proof.
  intros request updated. split; [reflexivity|].
  apply (resolveChatTags_idempotent R5 (Some request) sampleWorld updated).
  reflexivity.
Defined.

(** X10 on [R1], which has no department, and a request with two tags. *)
Lemma resolveChatTags_without_department_witness :
  let request := mkCloseOptions None (Some ["b"; "c"; "b"]) None None in
  (∀ did, room_departmentId R1 = Some did → truthyString did = true →
          findDepartmentById (directory sampleWorld) did = None)
  ∧ ∃ updated,
      resolveChatTags R1 (Some request) sampleWorld = (Return updated, sampleWorld)
      ∧ NoDup (tagList (tags updated))
      ∧ ∀ x, x ∈ tagList (tags updated) ↔ x ∈ @nil string ∨ x ∈ ["b"; "c"; "b"].
Proof.
  intros request.
  assert (∀ did, room_departmentId R1 = Some did → truthyString did = true →
                 findDepartmentById (directory sampleWorld) did = None) as Hnone
    by (intros did Hdid; discriminate Hdid).
  split; [exact Hnone|].
  exact (resolveChatTags_without_department R1 (Some request) sampleWorld Hnone).
Defined.

(** X11 on [R5], whose department [D4] requires tags and has two. *)
Lemma resolveChatTags_policy_tags_witness :
  let updated := mkCloseOptions None (Some ["a"; "b"; "billing"]) None None in
  room_departmentId R5 = Some "D4"
  ∧ truthyString "D4" = true
  ∧ findDepartmentById (directory sampleWorld) "D4" = Some D4
  ∧ truthyBool (requestTagBeforeClosingChat D4) = true
  ∧ fst (resolveChatTags R5 None sampleWorld) = Return updated
  ∧ ∃ ts, tags updated = Some ts
          ∧ ts ≠ []
          ∧ tagList (chatClosingTags D4) ≠ []
          ∧ ∀ x, x ∈ tagList (chatClosingTags D4) → x ∈ ts.
Proof.
  intros updated. repeat (split; [reflexivity|]).
  apply (resolveChatTags_policy_tags R5 None sampleWorld "D4" D4 updated);
    reflexivity.
Defined.

(** ** Closure coordinator: failures, closer and order of effects *)

Local Close Scope string_scope.

Lemma chatCloserOf_cases p w :
  match params_user p, params_visitor p with
  | Some u, _ => chatCloserOf p w = (Return ("user"%string, userIdentity u), w)
  | None, Some v => chatCloserOf p w = (Return ("visitor"%string, visitorIdentity v), w)
  | None, None => chatCloserOf p w = (Throw closerError, w)
  end.
Proof.
  unfold chatCloserOf. destruct (params_user p); [done|].
  by destruct (params_visitor p).
Qed.

(** X12. How far [closeRoom] got can be read off three of its errors. The
    tag-policy error and the missing-closer error are raised before
    anything is written: the world is the one before the call, and the
    missing-closer error means that neither a user nor a visitor was
    supplied. The room-not-found error is raised by the re-read, after the
    three store writes and before any message, callback or event: the
    journal then holds the three writes and nothing else, no message was
    inserted, and the store has no room of that id. *)
Theorem closeRoom_failure_effects p w e w1 :
  closeRoom p w = (Throw e, w1) →
  (e = tagsError → w1 = w)
  ∧ (e = closerError →
     w1 = w ∧ params_user p = None ∧ params_visitor p = None)
  ∧ (e = roomNotFoundError →
     ∃ room closeData,
       params_room p = Some room
       ∧ isOmnichannelRoom room = true
       ∧ truthyBool (room_open room) = true
       ∧ rooms w1 !! room_id room = None
       ∧ messages w1 = messages w
       ∧ journal w1
         = journal w
           ++ [ LivechatRooms_closeRoomById (room_id room) closeData;
                LivechatInquiry_removeByRoomId (room_id room);
                Subscriptions_removeByRoomId (room_id room) ]).
Proof.
  intros Hrun.
  destruct (params_room p) as [room|] eqn:Hroom.
  - destruct (isOmnichannelRoom room) eqn:Homni;
      [|by rewrite (closeRoom_guarded p w room) in Hrun; [|done|left]].
    destruct (truthyBool (room_open room)) eqn:Hopen;
      [|by rewrite (closeRoom_guarded p w room) in Hrun; [|done|right]].
    rewrite (closeRoom_open_run p w room) in Hrun by done.
    destruct (resolveChatTags room (params_options p) w) as [[options|e'] w'] eqn:Hres.
    + pose proof (chatCloserOf_cases p w) as Hcloser.
      destruct (chatCloserOf p w) as [[c|e'] w''] eqn:Hc.
      * rewrite commitClosure_run in Hrun. simpl in Hrun.
        destruct (closeWrite _ _ (rooms w) !! room_id room) eqn:Hnew; [done|].
        injection Hrun as <- <-. split_and!; try done.
        intros _. by eexists room, _.
      * injection Hrun as <- <-.
        destruct (params_user p); [done|].
        destruct (params_visitor p); [done|].
        injection Hcloser as ->. done.
    + injection Hrun as <- <-.
      assert (fst (resolveChatTags room (params_options p) w) = Throw e') as Hthrow
        by (by rewrite Hres).
      apply resolveChatTags_throw_inv in Hthrow as [-> _]. done.
  - unfold closeRoom in Hrun. rewrite Hroom in Hrun.
    injection Hrun as <- <-. done.
Qed.

(** X13. A successful closure records who closed the room: the user when
    one is supplied, even beside a visitor, and the visitor otherwise; the
    [closedBy] of the close data keeps the [_id] and the [username] of that
    closer and nothing else. *)
Theorem closeRoom_closer p w room w1 :
  params_room p = Some room →
  isOmnichannelRoom room = true →
  truthyBool (room_open room) = true →
  closeRoom p w = (Return tt, w1) →
  ∃ closeData rest,
    journal w1
    = journal w ++ LivechatRooms_closeRoomById (room_id room) closeData :: rest
    ∧ match params_user p, params_visitor p with
      | Some u, _ =>
          closer closeData = Some "user"%string
          ∧ closedBy closeData
            = Some (mkIdentity (user_id u) (user_username u) None)
      | None, Some v =>
          closer closeData = Some "visitor"%string
          ∧ closedBy closeData
            = Some (mkIdentity (visitor_id v) (visitor_username v) None)
      | None, None => False
      end.
Proof.
  intros Hroom Homni Hopen Hrun.
  destruct (closeRoom_success p w room w1 Hroom Homni Hopen Hrun)
    as (options & c & newRoom & _ & Hc & _ & ->).
  eexists _, _. simpl. split; [reflexivity|].
  pose proof (chatCloserOf_cases p w) as Hcases. rewrite Hc in Hcases.
  destruct (params_user p) as [u|]; [by injection Hcases as ->|].
  destruct (params_visitor p) as [v|]; [by injection Hcases as ->|done].
Qed.

(** X14. A successful closure issues its effects in this order and no
    others: the closing write, the removal of the inquiry, the removal of
    the subscriptions, the closing message (type [livechat-close], the
    comment as text, not groupable, flagged with whether a transcript was
    requested, stamped with the closing time), the transcript prompt
    (type [command]), the callback chain with the resolved options and
    last, deferred to the next tick, the two bridge events when the bridges
    exist. Both messages, the callback and the events refer to the room as
    re-read after the writes. *)
Theorem closeRoom_effects p w room w1 :
  params_room p = Some room →
  isOmnichannelRoom room = true →
  truthyBool (room_open room) = true →
  closeRoom p w = (Return tt, w1) →
  ∃ options closeData newRoom author,
    let rid := room_id room in
    let closing :=
      mkMessage (room_id newRoom) (Some "livechat-close"%string) (clock w)
        (params_comment p) author (Some false)
        (Some (bool_decide (is_Some (room_transcriptRequest room)))) None in
    let prompt :=
      mkMessage rid (Some "command"%string) (clock w)
        (Some "promptTranscript"%string) (closedByOf author) None None None in
    resolveChatTags room (params_options p) w = (Return options, w)
    ∧ closeOptions closeData = options
    ∧ LivechatRooms_findOneById rid w1 = (Return (Some newRoom), w1)
    ∧ messages w1 = messages w ++ [closing; prompt]
    ∧ journal w1
      = journal w
        ++ [ LivechatRooms_closeRoomById rid closeData;
             LivechatInquiry_removeByRoomId rid;
             Subscriptions_removeByRoomId rid;
             Messages_insert closing;
             Messages_insert prompt;
             Callbacks_runAsync "livechat.closeRoom" newRoom options ]
        ++ (if bridges w
            then [ Bridge_livechatEvent "ILivechatRoomClosedHandler" newRoom;
                   Bridge_livechatEvent "IPostLivechatRoomClosed" newRoom ]
            else []).
Proof.
  intros Hroom Homni Hopen Hrun.
  destruct (closeRoom_success p w room w1 Hroom Homni Hopen Hrun)
    as (options & c & newRoom & Hres & _ & Hnew & ->).
  exists options,
    (recordCloser (closeDataOf (clock w) room options) (fst c) (snd c)),
    newRoom, (snd c).
  simpl. split_and!; try reflexivity; try done.
  unfold LivechatRooms_findOneById, gets. simpl. by rewrite Hnew.
Qed.

(** X15. An open room cannot be closed anonymously: when neither a user
    nor a visitor is supplied, [closeRoom] fails, with the tag-policy error
    if the tags are rejected and with the missing-closer error otherwise,
    and the world is left untouched. *)
Theorem closeRoom_without_closer p w room :
  params_room p = Some room →
  isOmnichannelRoom room = true →
  truthyBool (room_open room) = true →
  params_user p = None →
  params_visitor p = None →
  ∃ e, closeRoom p w = (Throw e, w) ∧ (e = tagsError ∨ e = closerError).
Proof.
  intros Hroom Homni Hopen Huser Hvisitor.
  rewrite (closeRoom_open_run p w room) by done.
  destruct (resolveChatTags room (params_options p) w) as [[options|e] w'] eqn:Hres.
  - pose proof (chatCloserOf_cases p w) as Hcases.
    rewrite Huser, Hvisitor in Hcases. rewrite Hcases.
    exists closerError. split; [done|by right].
  - exists e. split; [done|]. left.
    assert (fst (resolveChatTags room (params_options p) w) = Throw e) as Hthrow
      by (by rewrite Hres).
    by apply resolveChatTags_throw_inv in Hthrow as [-> _].
Qed.


(** ** The further properties of the closure coordinator on the sample data *)

Local Open Scope string_scope.

(** X12 on [R9], which is open and unknown to the store. *)
Lemma closeRoom_failure_effects_witness :
  let p := closeBy (Some R9) None None in
  let w1 := snd (closeRoom p sampleWorld) in
  closeRoom p sampleWorld = (Throw roomNotFoundError, w1)
  ∧ rooms w1 !! "R9" = None
  ∧ messages w1 = messages sampleWorld
  ∧ ∃ closeData,
      journal w1
      = [ LivechatRooms_closeRoomById "R9" closeData;
          LivechatInquiry_removeByRoomId "R9";
          Subscriptions_removeByRoomId "R9" ].
Proof.
  intros p w1.
  assert (closeRoom p sampleWorld = (Throw roomNotFoundError, w1)) as Hrun
    by (vm_compute; reflexivity).
  split; [exact Hrun|].
  destruct (closeRoom_failure_effects p sampleWorld roomNotFoundError w1 Hrun)
    as (_ & _ & Hfound).
  destruct (Hfound eq_refl) as (room & closeData & Hroom & _ & _ & Hnone & Hms & Hj).
  injection Hroom as <-.
  split; [exact Hnone|]. split; [exact Hms|]. exists closeData. exact Hj.
Defined.

(** X13 on [R1], closed with both a user and a visitor named. *)
Lemma closeRoom_closer_witness :
  let p := closeByBoth R1 in
  let w1 := snd (closeRoom p sampleWorld) in
  params_room p = Some R1
  ∧ isOmnichannelRoom R1 = true
  ∧ truthyBool (room_open R1) = true
  ∧ closeRoom p sampleWorld = (Return tt, w1)
  ∧ ∃ closeData rest,
      journal w1 = LivechatRooms_closeRoomById "R1" closeData :: rest
      ∧ closer closeData = Some "user"
      ∧ closedBy closeData = Some (mkIdentity "U1" (Some "agent.one") None).
Proof.
  intros p w1.
  assert (closeRoom p sampleWorld = (Return tt, w1)) as Hrun
    by (vm_compute; reflexivity).
  repeat (split; [first [exact Hrun|reflexivity]|]).
  destruct (closeRoom_closer p sampleWorld R1 w1 eq_refl eq_refl eq_refl Hrun)
    as (closeData & rest & Hj & Hcloser & HclosedBy).
  exists closeData, rest. split_and!; [exact Hj|exact Hcloser|exact HclosedBy].
Defined.

(** X14 on [R1], closed by [U1] with the comment "resolved" in a world
    with bridges: the callback chain comes before the two events. *)
Lemma closeRoom_effects_witness :
  let p := closeBy (Some R1) (Some "resolved") None in
  let w1 := snd (closeRoom p sampleWorld) in
  params_room p = Some R1
  ∧ isOmnichannelRoom R1 = true
  ∧ truthyBool (room_open R1) = true
  ∧ closeRoom p sampleWorld = (Return tt, w1)
  ∧ length (messages w1) = (length (messages sampleWorld) + 2)%nat
  ∧ ∃ closeData closing prompt newRoom options,
      journal w1
      = [ LivechatRooms_closeRoomById "R1" closeData;
          LivechatInquiry_removeByRoomId "R1";
          Subscriptions_removeByRoomId "R1";
          Messages_insert closing;
          Messages_insert prompt;
          Callbacks_runAsync "livechat.closeRoom" newRoom options;
          Bridge_livechatEvent "ILivechatRoomClosedHandler" newRoom;
          Bridge_livechatEvent "IPostLivechatRoomClosed" newRoom ]
      ∧ m_t closing = Some "livechat-close"
      ∧ m_msg closing = Some "resolved"
      ∧ m_t prompt = Some "command".
Proof.
  intros p w1.
  assert (closeRoom p sampleWorld = (Return tt, w1)) as Hrun
    by (vm_compute; reflexivity).
  do 4 (split; [first [exact Hrun|reflexivity]|]).
  destruct (closeRoom_effects p sampleWorld R1 w1 eq_refl eq_refl eq_refl Hrun)
    as (options & closeData & newRoom & author & _ & _ & _ & Hms & Hj).
  split.
  - rewrite Hms, length_app. reflexivity.
  - eexists closeData, _, _, newRoom, options.
    split; [exact Hj|]. split_and!; reflexivity.
Defined.

(** X15 on [R1], closed with nobody named. *)
Lemma closeRoom_without_closer_witness :
  params_room (closeByNobody R1) = Some R1
  ∧ isOmnichannelRoom R1 = true
  ∧ truthyBool (room_open R1) = true
  ∧ params_user (closeByNobody R1) = None
  ∧ params_visitor (closeByNobody R1) = None
  ∧ ∃ e, closeRoom (closeByNobody R1) sampleWorld = (Throw e, sampleWorld)
         ∧ (e = tagsError ∨ e = closerError).
Proof.
  repeat (split; [reflexivity|]).
  apply (closeRoom_without_closer (closeByNobody R1) sampleWorld R1); reflexivity.
Defined.


(** ** Transcript generator: mail, audit message and frame *)

Local Close Scope string_scope.

(** The run of [sendTranscript] after the visitor and the room are
    accepted, as a function of the author found for the audit message. *)
Lemma sendTranscript_accepted_run X token rid email subject user w visitor room v ms :
  visitorByToken w token = Some visitor →
  rooms w !! rid = Some room →
  room_t room = "l"%string →
  room_v room = Some v →
  v_token v = token →
  transcriptMessages rid w = (Return ms, w) →
  let html :=
    renderTranscript X visitor (Livechat_show_agent_info (settings w))
      (userLanguageOf w visitor) (getTimezone X user) ms in
  let sent :=
    journal w
    ++ [ Mailer_send (transcriptMail X w visitor email subject html);
         Callbacks_run "livechat.sendTranscript" ms email ] in
  sendTranscript X token rid email subject user w
  = match auditAuthor w user with
    | None => (Throw noAuthorError, setJournal w sent)
    | Some (type, author) =>
        let audit :=
          mkMessage (room_id room) (Some "livechat_transcript_history"%string)
            (clock w) (Some ""%string) (userIdentity author) None None
            (Some (mkRequestData type visitor (Some author))) in
        (Return true,
         mkWorld (clock w) (settings w) (bridges w) (directory w) (visitors w)
           (users w) (rooms w) (messages w ++ [audit])
           (sent ++ [Messages_insert audit]))
    end.
Proof.
  intros Hvisitor Hroom Ht Hv Htoken Hms html sent. subst html sent.
  unfold sendTranscript, LivechatRooms_findOneById,
    LivechatVisitors_getVisitorByToken.
  unfold bind at 1. unfold gets at 1. rewrite Hroom.
  unfold bind at 1. unfold gets at 1. rewrite Hvisitor.
  unfold bind at 1. unfold gets at 1. rewrite Ht, Hv, Htoken.
  rewrite !bool_decide_eq_true_2 by done. simpl.
  unfold bind at 1. unfold gets at 1.
  unfold bind at 1. rewrite Hms.
  unfold bind at 1. unfold gets at 1.
  unfold sendEmail, Users_findOneById, Message_saveSystemMessage, insertMessage,
    call, bind, gets, modify, ret, throw, auditAuthor, transcriptMail, orString,
    setJournal, setMessages, noAuthorError.
  simpl.
  assert (default (i18n X "Transcript_of_your_livechat_conversation"%string
                     (userLanguageOf w visitor))
                  (if truthyOptString subject then subject else None)
          = if truthyOptString subject then interpolate subject
            else i18n X "Transcript_of_your_livechat_conversation"%string
                   (userLanguageOf w visitor)) as ->.
  { destruct subject as [s|]; simpl; [|done]. by destruct (truthyString s). }
  destruct user as [u|]; simpl.
  - destruct (truthyOptString (user_username u)) eqn:Hname; simpl;
      [|destruct (users w !! "rocket.cat"%string) as [cat|]; simpl];
      rewrite <- ?app_assoc; reflexivity.
  - destruct (users w !! "rocket.cat"%string) as [cat|]; simpl;
      rewrite <- ?app_assoc; reflexivity.
Qed.

(** X16. When the visitor and the room are accepted but no requesting user
    is given and the [rocket.cat] account does not exist, [sendTranscript]
    fails with the missing-author error only after the mail has been handed
    to the mailer and the callback chain has been deferred: the journal
    holds these two calls, and no audit message is written. *)
Theorem sendTranscript_no_author X token rid email subject w visitor room v :
  visitorByToken w token = Some visitor →
  rooms w !! rid = Some room →
  room_t room = "l"%string →
  room_v room = Some v →
  v_token v = token →
  users w !! "rocket.cat"%string = None →
  ∃ mail ms w',
    sendTranscript X token rid email subject None w = (Throw noAuthorError, w')
    ∧ journal w'
      = journal w
        ++ [Mailer_send mail; Callbacks_run "livechat.sendTranscript" ms email]
    ∧ mail_to mail = email
    ∧ messages w' = messages w.
Proof.
  intros Hvisitor Hroom Ht Hv Htoken Hcat.
  destruct (transcriptMessages_run rid w) as (closing & ms & _ & Hms & _).
  rewrite (sendTranscript_accepted_run X token rid email subject None w visitor
             room v ms) by done.
  unfold auditAuthor. rewrite Hcat. by eexists _, ms, _.
Qed.

(** X17. When the visitor and the room are accepted and an author is found
    (the requesting user when it has a username, else [rocket.cat] with
    type ['visitor'], else the requesting user without username),
    [sendTranscript] returns [true] and appends exactly one message: the
    audit record of type [livechat_transcript_history] for the room, stamped
    with the current time, with an empty text, written in the name of that
    author and carrying the type, the visitor and the author as request
    data. *)
Theorem sendTranscript_audit X token rid email subject user w visitor room v
    type author :
  visitorByToken w token = Some visitor →
  rooms w !! rid = Some room →
  room_t room = "l"%string →
  room_v room = Some v →
  v_token v = token →
  auditAuthor w user = Some (type, author) →
  ∃ w',
    sendTranscript X token rid email subject user w = (Return true, w')
    ∧ messages w'
      = messages w
        ++ [mkMessage (room_id room) (Some "livechat_transcript_history"%string)
              (clock w) (Some ""%string) (userIdentity author) None None
              (Some (mkRequestData type visitor (Some author)))]
    ∧ (∀ u, user = Some u → truthyOptString (user_username u) = true →
            type = "user"%string ∧ author = u)
    ∧ (∀ cat, users w !! "rocket.cat"%string = Some cat →
              (∀ u, user = Some u → truthyOptString (user_username u) = false) →
              type = "visitor"%string ∧ author = cat).
Proof.
  intros Hvisitor Hroom Ht Hv Htoken Hauthor.
  destruct (transcriptMessages_run rid w) as (closing & ms & _ & Hms & _).
  rewrite (sendTranscript_accepted_run X token rid email subject user w visitor
             room v ms) by done.
  rewrite Hauthor. eexists. split_and!; [reflexivity|reflexivity| |].
  - intros u -> Hname. unfold auditAuthor in Hauthor. rewrite Hname in Hauthor.
    by injection Hauthor as <- <-.
  - intros cat Hcat Hno. unfold auditAuthor in Hauthor. rewrite Hcat in Hauthor.
    destruct user as [u|]; [rewrite (Hno u eq_refl) in Hauthor|];
      by injection Hauthor as <- <-.
Qed.

(** X18. The mail of an accepted [sendTranscript] goes to the requested
    address; its sender and its reply address are the same, the address
    matched in the [From_Email] setting or, without a match, the setting as
    it is; its subject is the supplied subject when that is a non-empty
    string and the localised default otherwise. *)
Theorem sendTranscript_mail X token rid email subject user w visitor room v :
  visitorByToken w token = Some visitor →
  rooms w !! rid = Some room →
  room_t room = "l"%string →
  room_v room = Some v →
  v_token v = token →
  ∃ mail rest,
    journal (snd (sendTranscript X token rid email subject user w))
    = journal w ++ Mailer_send mail :: rest
    ∧ mail_to mail = email
    ∧ mail_replyTo mail = mail_from mail
    ∧ mail_from mail
      = default (From_Email (settings w))
                (matchAddress X (From_Email (settings w)))
    ∧ (∀ s, subject = Some s → truthyString s = true → mail_subject mail = s)
    ∧ (truthyOptString subject = false →
       mail_subject mail
       = i18n X "Transcript_of_your_livechat_conversation"%string
           (userLanguageOf w visitor)).
Proof.
  intros Hvisitor Hroom Ht Hv Htoken.
  destruct (transcriptMessages_run rid w) as (closing & ms & _ & Hms & _).
  rewrite (sendTranscript_accepted_run X token rid email subject user w visitor
             room v ms) by done.
  assert (∀ w' : Outcome bool * World,
            (∃ rest, journal (snd w')
                     = journal w
                       ++ Mailer_send
                            (transcriptMail X w visitor email subject
                               (renderTranscript X visitor
                                  (Livechat_show_agent_info (settings w))
                                  (userLanguageOf w visitor) (getTimezone X user) ms))
                          :: rest) →
            ∃ mail rest,
              journal (snd w') = journal w ++ Mailer_send mail :: rest
              ∧ mail_to mail = email
              ∧ mail_replyTo mail = mail_from mail
              ∧ mail_from mail
                = default (From_Email (settings w))
                          (matchAddress X (From_Email (settings w)))
              ∧ (∀ s, subject = Some s → truthyString s = true →
                      mail_subject mail = s)
              ∧ (truthyOptString subject = false →
                 mail_subject mail
                 = i18n X "Transcript_of_your_livechat_conversation"%string
                     (userLanguageOf w visitor))) as Hmail.
  { intros w' [rest Hj]. eexists _, rest. split; [exact Hj|].
    unfold transcriptMail. simpl. split_and!; try done.
    - intros s -> Hs. simpl. by rewrite Hs.
    - by intros ->. }
  apply Hmail.
  destruct (auditAuthor w user) as [[type author]|]; simpl;
    rewrite <- ?app_assoc; by eexists.
Qed.

(** X19. Whatever its arguments and its outcome, [sendTranscript] leaves
    the rooms, the directory, the visitors, the users, the settings and the
    clock as they are; it appends one message, the audit record, exactly
    when it returns, and none when it fails. *)
Theorem sendTranscript_frame X token rid email subject user w :
  let run := sendTranscript X token rid email subject user w in
  rooms (snd run) = rooms w
  ∧ directory (snd run) = directory w
  ∧ visitors (snd run) = visitors w
  ∧ users (snd run) = users w
  ∧ settings (snd run) = settings w
  ∧ clock (snd run) = clock w
  ∧ ((fst run = Return true
      ∧ ∃ m, messages (snd run) = messages w ++ [m]
             ∧ m_t m = Some "livechat_transcript_history"%string)
     ∨ ((∃ e, fst run = Throw e) ∧ messages (snd run) = messages w)).
Proof.
  intros run. subst run.
  destruct (visitorByToken w token) as [visitor|] eqn:Hvisitor.
  - destruct (rooms w !! rid) as [room|] eqn:Hroom.
    + destruct (decide (room_t room = "l"%string)) as [Ht|Ht].
      * destruct (room_v room) as [v|] eqn:Hv.
        -- destruct (decide (v_token v = token)) as [Htoken|Htoken].
           ++ destruct (transcriptMessages_run rid w) as (closing & ms & _ & Hms & _).
              rewrite (sendTranscript_accepted_run X token rid email subject user w
                         visitor room v ms) by done.
              destruct (auditAuthor w user) as [[type author]|]; simpl.
              ** split_and!; try done. left. split; [done|]. by eexists.
              ** split_and!; try done. right. split; [by eexists|done].
           ++ unfold sendTranscript, LivechatRooms_findOneById,
                LivechatVisitors_getVisitorByToken, bind, gets, throw.
              rewrite Hroom, Hvisitor, Hv.
              rewrite (bool_decide_eq_false_2 (v_token v = token)) by done.
              rewrite orb_true_r. simpl.
              split_and!; try done. right. split; [by eexists|done].
        -- unfold sendTranscript, LivechatRooms_findOneById,
             LivechatVisitors_getVisitorByToken, bind, gets, throw.
           rewrite Hroom, Hvisitor, Hv. rewrite orb_true_r. simpl.
           split_and!; try done. right. split; [by eexists|done].
      * unfold sendTranscript, LivechatRooms_findOneById,
          LivechatVisitors_getVisitorByToken, bind, gets, throw.
        rewrite Hroom, Hvisitor. rewrite bool_decide_eq_false_2 by done. simpl.
        split_and!; try done. right. split; [by eexists|done].
    + unfold sendTranscript, LivechatRooms_findOneById,
        LivechatVisitors_getVisitorByToken, bind, gets, throw.
      rewrite Hroom, Hvisitor. simpl.
      split_and!; try done. right. split; [by eexists|done].
  - unfold sendTranscript, LivechatRooms_findOneById,
      LivechatVisitors_getVisitorByToken, bind, gets, throw.
    rewrite Hvisitor. simpl.
    split_and!; try done. right. split; [by eexists|done].
Qed.

(** ** The further properties of the transcript generator on the sample data *)

Local Open Scope string_scope.

(** X16 on the sample world, which has no [rocket.cat] account. *)
Lemma sendTranscript_no_author_witness :
  visitorByToken sampleWorld "tok-1" = Some V1
  ∧ rooms sampleWorld !! "R1" = Some R1
  ∧ room_t R1 = "l"
  ∧ room_v R1 = Some (mkRoomVisitor "V1" "tok-1")
  ∧ v_token (mkRoomVisitor "V1" "tok-1") = "tok-1"
  ∧ users sampleWorld !! "rocket.cat" = None
  ∧ ∃ mail ms w',
      sendTranscript sampleRendering "tok-1" "R1" "guest@example.org" None None
        sampleWorld
      = (Throw noAuthorError, w')
      ∧ journal w'
        = [Mailer_send mail;
           Callbacks_run "livechat.sendTranscript" ms "guest@example.org"]
      ∧ mail_to mail = "guest@example.org"
      ∧ messages w' = messages sampleWorld.
Proof.
  do 6 (split; [reflexivity|]).
  exact (sendTranscript_no_author sampleRendering "tok-1" "R1" "guest@example.org"
           None sampleWorld V1 R1 (mkRoomVisitor "V1" "tok-1")
           eq_refl eq_refl eq_refl eq_refl eq_refl eq_refl).
Defined.

(** X17 on the world with a [rocket.cat] account and no requesting user. *)
Lemma sendTranscript_audit_witness :
  visitorByToken sampleWorldWithCat "tok-1" = Some V1
  ∧ rooms sampleWorldWithCat !! "R1" = Some R1
  ∧ room_t R1 = "l"
  ∧ room_v R1 = Some (mkRoomVisitor "V1" "tok-1")
  ∧ v_token (mkRoomVisitor "V1" "tok-1") = "tok-1"
  ∧ auditAuthor sampleWorldWithCat None = Some ("visitor", rocketCat)
  ∧ ∃ w',
      sendTranscript sampleRendering "tok-1" "R1" "guest@example.org" None None
        sampleWorldWithCat
      = (Return true, w')
      ∧ length (messages w') = S (length (messages sampleWorldWithCat)).
Proof.
  do 6 (split; [reflexivity|]).
  destruct (sendTranscript_audit sampleRendering "tok-1" "R1" "guest@example.org"
              None None sampleWorldWithCat V1 R1 (mkRoomVisitor "V1" "tok-1")
              "visitor" rocketCat eq_refl eq_refl eq_refl eq_refl eq_refl eq_refl)
    as (w' & Hrun & Hms & _).
  exists w'. split; [exact Hrun|]. rewrite Hms, length_app. simpl. lia.
Defined.

(** X18 on the sample world, with a subject. *)
Lemma sendTranscript_mail_witness :
  visitorByToken sampleWorld "tok-1" = Some V1
  ∧ rooms sampleWorld !! "R1" = Some R1
  ∧ room_t R1 = "l"
  ∧ room_v R1 = Some (mkRoomVisitor "V1" "tok-1")
  ∧ v_token (mkRoomVisitor "V1" "tok-1") = "tok-1"
  ∧ ∃ mail rest,
      journal (snd (sendTranscript sampleRendering "tok-1" "R1" "guest@example.org"
                      (Some "Your chat") (Some U1) sampleWorld))
      = Mailer_send mail :: rest
      ∧ mail_to mail = "guest@example.org"
      ∧ mail_from mail = "support@example.org"
      ∧ mail_replyTo mail = "support@example.org"
      ∧ mail_subject mail = "Your chat".
Proof.
  do 5 (split; [reflexivity|]).
  destruct (sendTranscript_mail sampleRendering "tok-1" "R1" "guest@example.org"
              (Some "Your chat") (Some U1) sampleWorld V1 R1
              (mkRoomVisitor "V1" "tok-1") eq_refl eq_refl eq_refl eq_refl eq_refl)
    as (mail & rest & Hj & Hto & Hreply & Hfrom & Hsubject & _).
  exists mail, rest. split_and!.
  - exact Hj.
  - exact Hto.
  - exact Hfrom.
  - rewrite Hreply. exact Hfrom.
  - apply (Hsubject "Your chat"); reflexivity.
Defined.


(** ** The fossify script *)

Local Close Scope string_scope.

Section fossify_properties.
Context {FS : Type} (api : FileSystem FS).

(** [fossify] never throws and leaves the dialogue alone. *)
Lemma fossify_returns dryRun (s : Script FS) :
  ∃ s',
    fossify api dryRun s = (Return tt, s')
    ∧ script_input s' = script_input s
    ∧ script_closed s' = script_closed s.
Proof.
  unfold fossify, removeDir, removeFile, replaceFile, fs_call, console_log,
    console_error, st_catch, st_bind, st_ret, st_throw.
  destruct dryRun; simpl.
  - destruct (fs_rename api _ _ (script_fs s)); simpl; by eexists.
  - destruct (fs_rmdir api "./ee" (script_fs s)) as [msg1|fs1]; simpl;
      [by eexists|].
    destruct (fs_rmdir api "./apps/meteor/ee" fs1) as [msg2|fs2]; simpl;
      [by eexists|].
    destruct (fs_unlink api "./apps/meteor/server/ee.ts" fs2) as [msg3|fs3]; simpl;
      [by eexists|].
    destruct (fs_rename api _ _ fs3); simpl; by eexists.
Qed.

(** X21. A dry run of [fossify] removes nothing, but it is not without
    effect: it still renames [foss.ts] over [ee.ts]. Its only call on the
    file system is that rename; when the rename succeeds the file system is
    the renamed one and the console ends with "Dry run completed. No changes
    were made."; when it fails the file system is unchanged and the error is
    printed. *)
Theorem fossify_dry_run (s : Script FS) :
  ∃ s',
    fossify api true s = (Return tt, s')
    ∧ script_calls s'
      = script_calls s
        ++ [Rename "./apps/meteor/server/foss.ts" "./apps/meteor/server/ee.ts"]
    ∧ script_input s' = script_input s
    ∧ script_closed s' = script_closed s
    ∧ match fs_rename api "./apps/meteor/server/foss.ts"
              "./apps/meteor/server/ee.ts" (script_fs s) with
      | inr fs' =>
          script_fs s' = fs'
          ∧ last (script_console s')
            = Some (ConsoleLog "Dry run completed. No changes were made.")
      | inl msg =>
          script_fs s' = script_fs s
          ∧ last (script_console s')
            = Some (ConsoleError ("Error: Failed to replace file: " +:+ msg))
      end.
Proof.
  unfold fossify, replaceFile, fs_call, console_log, console_error, st_catch,
    st_bind, st_ret, st_throw. simpl.
  destruct (fs_rename api _ _ (script_fs s)) as [msg|fs']; simpl;
    eexists; split_and!; try reflexivity; simpl; by rewrite last_snoc.
Qed.

(** X22. [fossify] never throws. A full run calls the file system in a
    fixed order (the two directory removals, the file removal, the rename),
    each call on the file system the call before it left, and stops at the
    first call that fails: the calls made are the sequence up to and
    including that call, the file system is the one the last successful
    call left, and the console ends with the error of the failed step. Only
    when all four calls succeed does the run end with the completion line.
    The pending input and [readline] are not touched. *)
Theorem fossify_full_run (s : Script FS) :
  ∃ s' n,
    fossify api false s = (Return tt, s')
    ∧ 1 ≤ n ≤ 4
    ∧ script_calls s' = script_calls s ++ take n fossifyCalls
    ∧ script_input s' = script_input s
    ∧ script_closed s' = script_closed s
    ∧ match fs_rmdir api "./ee" (script_fs s) with
      | inl msg =>
          n = 1 ∧ script_fs s' = script_fs s
          ∧ last (script_console s')
            = Some (ConsoleError
                      ("Error: Failed to remove Premium Apps and Packages: " +:+ msg))
      | inr fs1 =>
      match fs_rmdir api "./apps/meteor/ee" fs1 with
      | inl msg =>
          n = 2 ∧ script_fs s' = fs1
          ∧ last (script_console s')
            = Some (ConsoleError
                      ("Error: Failed to remove Premium code in the main app: "
                       +:+ msg))
      | inr fs2 =>
      match fs_unlink api "./apps/meteor/server/ee.ts" fs2 with
      | inl msg =>
          n = 3 ∧ script_fs s' = fs2
          ∧ last (script_console s')
            = Some (ConsoleError
                      ("Error: Failed to remove premium EE TypeScript file: "
                       +:+ msg))
      | inr fs3 =>
      match fs_rename api "./apps/meteor/server/foss.ts"
              "./apps/meteor/server/ee.ts" fs3 with
      | inl msg =>
          n = 4 ∧ script_fs s' = fs3
          ∧ last (script_console s')
            = Some (ConsoleError ("Error: Failed to replace file: " +:+ msg))
      | inr fs4 =>
          n = 4 ∧ script_fs s' = fs4
          ∧ last (script_console s')
            = Some (ConsoleLog "Process completed successfully.")
      end end end end.
Proof.
  unfold fossify, removeDir, removeFile, replaceFile, fs_call, console_log,
    console_error, st_catch, st_bind, st_ret, st_throw. simpl.
  destruct (fs_rmdir api "./ee" (script_fs s)) as [msg1|fs1]; simpl.
  { eexists _, 1. split_and!; try reflexivity; try lia.
    simpl. by rewrite last_snoc. }
  destruct (fs_rmdir api "./apps/meteor/ee" fs1) as [msg2|fs2]; simpl.
  { eexists _, 2. split_and!; try reflexivity; try lia.
    - simpl. by rewrite <- !app_assoc.
    - simpl. by rewrite last_snoc. }
  destruct (fs_unlink api "./apps/meteor/server/ee.ts" fs2) as [msg3|fs3]; simpl.
  { eexists _, 3. split_and!; try reflexivity; try lia.
    - simpl. by rewrite <- !app_assoc.
    - simpl. by rewrite last_snoc. }
  destruct (fs_rename api "./apps/meteor/server/foss.ts"
              "./apps/meteor/server/ee.ts" fs3) as [msg4|fs4]; simpl.
  { eexists _, 4. split_and!; try reflexivity; try lia.
    - simpl. by rewrite <- !app_assoc.
    - simpl. by rewrite last_snoc. }
  eexists _, 4. split_and!; try reflexivity; try lia.
  - simpl. by rewrite <- !app_assoc.
  - simpl. by rewrite last_snoc.
Qed.

(** X23. When the removal of [./ee] fails, a full run of [fossify] does
    nothing else: the file system is unchanged, no other call is made, and
    the console shows the start line, the removal line and the error
    "Error: Failed to remove Premium Apps and Packages: " followed by the
    message of the failure. *)
Theorem fossify_first_failure (s : Script FS) msg :
  fs_rmdir api "./ee" (script_fs s) = inl msg →
  fossify api false s
  = (Return tt,
     mkScript (script_fs s) (script_calls s ++ [Rmdir "./ee"])
       (script_console s
        ++ [ ConsoleLog "Starting the removal process...";
             ConsoleLog "Removing Premium Apps and Packages...";
             ConsoleError
               ("Error: Failed to remove Premium Apps and Packages: " +:+ msg) ])
       (script_input s) (script_closed s)).
Proof.
  intros Hfail.
  unfold fossify, removeDir, fs_call, console_log, console_error, st_catch,
    st_bind, st_ret, st_throw. simpl. rewrite Hfail. simpl.
  by rewrite <- !app_assoc.
Qed.

Context (toLowerCase : string → string).

Lemma askLoop_invalid invalid answer rest console :
  Forall (λ a, validAnswer toLowerCase a = false) invalid →
  validAnswer toLowerCase answer = true →
  askLoop toLowerCase (invalid ++ answer :: rest) console
  = Some (answer, rest,
          console ++ replicate (S (length invalid)) (Question proceedQuery)).
Proof.
  intros Hinvalid Hvalid. revert console.
  induction Hinvalid as [|a invalid Ha _ IH]; intros console; simpl.
  - by rewrite Hvalid.
  - rewrite Ha, IH. by rewrite <- app_assoc.
Qed.

Lemma askLoop_None input console :
  askLoop toLowerCase input console = None
  ↔ Forall (λ a, validAnswer toLowerCase a = false) input.
Proof.
  revert console. induction input as [|a input IH]; intros console; simpl.
  - split; [constructor|done].
  - destruct (validAnswer toLowerCase a) eqn:Ha.
    + split; [done|]. intros Hall. apply Forall_cons in Hall as [Hfalse _].
      congruence.
    + rewrite IH. split; [by constructor|]. by intros [_ ?]%Forall_cons.
Qed.

(** X24. [startProcess] asks until it gets a valid answer. When the first
    answer that lower-cases to [y], [n] or [dry] lower-cases to [n], it
    prints the query once per answer read, prints "Operation aborted by
    user.", never calls the file system, leaves the later input unread, and
    calls [rl.close()] twice: once in the branch, once in [finally]. *)
Theorem startProcess_abort (s : Script FS) invalid answer rest :
  script_input s = invalid ++ answer :: rest →
  Forall (λ a, validAnswer toLowerCase a = false) invalid →
  toLowerCase answer = "n"%string →
  startProcess api toLowerCase s
  = Some (Return tt,
          mkScript (script_fs s) (script_calls s)
            (script_console s
             ++ replicate (S (length invalid)) (Question proceedQuery)
             ++ [ConsoleLog "Operation aborted by user."])
            rest (S (S (script_closed s)))).
Proof.
  intros Hinput Hinvalid Hn. unfold startProcess.
  rewrite Hinput, (askLoop_invalid invalid answer rest) by
    (done || (unfold validAnswer; rewrite Hn; done)).
  rewrite Hn. simpl.
  unfold st_finally, st_catch, st_bind, console_log, rl_close. simpl.
  by rewrite <- app_assoc.
Qed.

(** X25. [startProcess] completes exactly when some line of the input is a
    valid answer; without one it waits for input forever. When it completes
    it returns normally, whatever the file system did, having consumed the
    input up to the first valid answer and closed [readline]. *)
Theorem startProcess_completes (s : Script FS) :
  (startProcess api toLowerCase s = None
   ↔ Forall (λ a, validAnswer toLowerCase a = false) (script_input s))
  ∧ ∀ o s', startProcess api toLowerCase s = Some (o, s') →
      o = Return tt
      ∧ script_closed s' > script_closed s
      ∧ ∃ invalid answer,
          script_input s = invalid ++ answer :: script_input s'
          ∧ Forall (λ a, validAnswer toLowerCase a = false) invalid
          ∧ validAnswer toLowerCase answer = true.
Proof.
  split.
  - unfold startProcess. rewrite <- (askLoop_None (script_input s) (script_console s)).
    destruct (askLoop toLowerCase (script_input s) (script_console s))
      as [[[answer rest] console]|]; done.
  - intros o s' Hrun. unfold startProcess in Hrun.
    destruct (askLoop toLowerCase (script_input s) (script_console s))
      as [[[answer rest] console]|] eqn:Hask; [|done].
    assert (∃ invalid,
              script_input s = invalid ++ answer :: rest
              ∧ Forall (λ a, validAnswer toLowerCase a = false) invalid
              ∧ validAnswer toLowerCase answer = true) as (invalid & Hin & Hinv & Hval).
    { clear Hrun. revert Hask. generalize (script_console s).
      induction (script_input s) as [|a input IH]; intros c0 Hask; simpl in Hask;
        [done|].
      destruct (validAnswer toLowerCase a) eqn:Ha.
      - injection Hask as <- <- _. by exists [].
      - destruct (IH _ Hask) as (invalid & -> & Hinv & Hval).
        exists (a :: invalid). split_and!; [done|by constructor|done]. }
    injection Hrun as Hrun. revert Hrun.
    unfold st_finally, st_catch, rl_close.
    destruct (bool_decide (toLowerCase answer = "n"%string)).
    + unfold st_bind, console_log, rl_close. simpl. intros [= <- <-]. simpl.
      split_and!; [done|lia|]. by exists invalid, answer.
    + set (asked := mkScript _ _ _ _ _).
      destruct (fossify_returns (bool_decide (toLowerCase answer = "dry"%string))
                  asked) as (s1 & Hs1 & Hin1 & Hcl1).
      rewrite Hs1. simpl. intros [= <- <-]. simpl. rewrite Hin1, Hcl1.
      split_and!; [done|simpl; lia|]. by exists invalid, answer.
Qed.

End fossify_properties.

(** ** The fossify script on the sample file system *)

Local Open Scope string_scope.

(** X21 on the sample checkout: after the dry run [foss.ts] is gone. *)
Lemma fossify_dry_run_witness :
  ∃ s',
    fossify samplePaths true (sampleScript sampleCheckout []) = (Return tt, s')
    ∧ script_calls s'
      = [Rename "./apps/meteor/server/foss.ts" "./apps/meteor/server/ee.ts"]
    ∧ ("./apps/meteor/server/foss.ts" ∉ script_fs s')
    ∧ ("./ee" ∈ script_fs s')
    ∧ last (script_console s')
      = Some (ConsoleLog "Dry run completed. No changes were made.").
Proof.
  destruct (fossify_dry_run samplePaths (sampleScript sampleCheckout []))
    as (s' & Hrun & Hcalls & _ & _ & Hfs & Hlast).
  exists s'. split_and!; [exact Hrun|exact Hcalls| | |exact Hlast].
  - rewrite Hfs. vm_compute. intros Hin.
    repeat (apply elem_of_cons in Hin as [Hin|Hin]; [discriminate Hin|]).
    by apply elem_of_nil in Hin.
  - rewrite Hfs. vm_compute. apply elem_of_cons. right. apply elem_of_cons. by left.
Defined.

(** X22 on the checkout without [ee.ts]: the two directories are removed,
    the removal of the file fails, and the rename is not attempted. *)
Lemma fossify_full_run_witness :
  ∃ s',
    fossify samplePaths false (sampleScript partialCheckout []) = (Return tt, s')
    ∧ script_calls s'
      = [ Rmdir "./ee"; Rmdir "./apps/meteor/ee";
          Unlink "./apps/meteor/server/ee.ts" ]
    ∧ script_fs s'
      = [ "./apps/meteor/server/foss.ts"; "./apps/meteor/server/main.ts" ]
    ∧ last (script_console s')
      = Some (ConsoleError
                ("Error: Failed to remove premium EE TypeScript file: "
                 +:+ "ENOENT: no such file or directory, unlink "
                 +:+ "'./apps/meteor/server/ee.ts'")).
Proof.
  destruct (fossify_full_run samplePaths (sampleScript partialCheckout []))
    as (s' & n & Hrun & _ & Hcalls & _ & _ & Hcase).
  vm_compute in Hcase. destruct Hcase as (-> & Hfs & Hlast).
  exists s'. split_and!; [exact Hrun|exact Hcalls|exact Hfs|exact Hlast].
Defined.

(** X23 on a checkout from which [./ee] is gone already. *)
Lemma fossify_first_failure_witness :
  fs_rmdir samplePaths "./ee" strippedCheckout
  = inl "ENOENT: no such file or directory, rmdir './ee'"
  ∧ fossify samplePaths false (sampleScript strippedCheckout [])
    = (Return tt,
       mkScript strippedCheckout [Rmdir "./ee"]
         [ ConsoleLog "Starting the removal process...";
           ConsoleLog "Removing Premium Apps and Packages...";
           ConsoleError
             "Error: Failed to remove Premium Apps and Packages: ENOENT: no such file or directory, rmdir './ee'" ]
         [] 0).
Proof.
  split; [reflexivity|].
  exact (fossify_first_failure samplePaths (sampleScript strippedCheckout [])
           "ENOENT: no such file or directory, rmdir './ee'" eq_refl).
Defined.

(** X24 on the answers [maybe], [N] and a line that is never read. *)
Lemma startProcess_abort_witness :
  script_input (sampleScript sampleCheckout ["maybe"; "N"; "y"])
  = (["maybe"] ++ "N" :: ["y"])%list
  ∧ Forall (λ a, validAnswer lowerString a = false) ["maybe"]
  ∧ lowerString "N" = "n"
  ∧ startProcess samplePaths lowerString
      (sampleScript sampleCheckout ["maybe"; "N"; "y"])
    = Some (Return tt,
            mkScript sampleCheckout []
              [ Question proceedQuery; Question proceedQuery;
                ConsoleLog "Operation aborted by user." ]
              ["y"] 2).
Proof.
  assert (Forall (λ a, validAnswer lowerString a = false) ["maybe"]) as Hinvalid
    by (constructor; [reflexivity|constructor]).
  split; [reflexivity|]. split; [exact Hinvalid|]. split; [reflexivity|].
  exact (startProcess_abort samplePaths lowerString
           (sampleScript sampleCheckout ["maybe"; "N"; "y"]) ["maybe"] "N" ["y"]
           eq_refl Hinvalid eq_refl).
Defined.


(** ** The slack import command *)

Local Close Scope string_scope.

Section slackbridge_properties.
Context (env : SlackEnv).

Lemma runCallbacks_run rid channel user calls s :
  ∃ new,
    runCallbacks env rid channel user calls s
    = (Return tt, mkSlackState (emitted s ++ new) (idsDrawn s + length new))
    ∧ length new = length calls
    ∧ Forall (importNoticeOf env rid) new.
Proof.
  revert s. induction calls as [|error calls IH]; intros s; simpl.
  - exists []. destruct s. unfold st_ret. simpl.
    by rewrite app_nil_r, Nat.add_0_r.
  - unfold st_bind.
    assert (∃ n, importCallback env rid channel user error s
                 = (Return tt, mkSlackState (emitted s ++ [n]) (S (idsDrawn s)))
                 ∧ importNoticeOf env rid n) as (n & -> & Hn).
    { destruct error; eexists; split; try reflexivity; by split_and!. }
    destruct (IH (mkSlackState (emitted s ++ [n]) (S (idsDrawn s))))
      as (new & -> & Hlen & Hall).
    exists (n :: new). simpl. split_and!.
    + do 2 f_equal; [by rewrite <- app_assoc|lia].
    + by rewrite Hlen.
    + by constructor.
Qed.

Lemma importAll_run rid channel user adapters s :
  ∃ new,
    importAll env adapters rid channel user s
    = (match firstRejection adapters with
       | Some error => Throw error
       | None => Return tt
       end,
       mkSlackState (emitted s ++ new) (idsDrawn s + length new))
    ∧ length new = callbackCount (adaptersRun adapters)
    ∧ Forall (importNoticeOf env rid) new.
Proof.
  revert s. induction adapters as [|slack adapters IH]; intros s; simpl.
  - exists []. destruct s. unfold st_ret. simpl.
    by rewrite app_nil_r, Nat.add_0_r.
  - unfold st_bind at 1. unfold importMessages. unfold st_bind at 1.
    destruct (runCallbacks_run rid channel user (adapter_callbacks slack) s)
      as (new1 & -> & Hlen1 & Hall1).
    destruct (adapter_rejects slack) as [error|].
    + exists new1. unfold st_throw, callbackCount. simpl.
      by rewrite app_nil_r.
    + unfold st_ret.
      destruct (IH (mkSlackState (emitted s ++ new1) (idsDrawn s + length new1)))
        as (new2 & -> & Hlen2 & Hall2).
      exists (new1 ++ new2). simpl. split_and!.
      * do 2 f_equal; [by rewrite <- app_assoc|rewrite length_app; lia].
      * unfold callbackCount in *. simpl.
        by rewrite !length_app, Hlen1, Hlen2.
      * by apply Forall_app.
Qed.

(** X26. The command puts nothing on the stream when it does not apply or
    cannot start: for another command or a parameter that is not a string
    it returns at once; for a room that is not found it fails reading the
    name of the room, and for a user that is not found it fails reading the
    username, in both cases before the start notice is emitted. *)
Theorem SlackBridgeImport_not_started command params rid userId s :
  (command ≠ "slackbridge-import"%string ∨ params = None →
   SlackBridgeImport env command params rid userId s = (Return tt, s))
  ∧ (command = "slackbridge-import"%string → is_Some params →
     slack_rooms env !! rid = None →
     SlackBridgeImport env command params rid userId s = (Throw roomNameError, s))
  ∧ (command = "slackbridge-import"%string → is_Some params →
     is_Some (slack_rooms env !! rid) →
     slack_users env !! userId = None →
     fst (SlackBridgeImport env command params rid userId s) = Throw usernameError
     ∧ emitted (snd (SlackBridgeImport env command params rid userId s))
       = emitted s).
Proof.
  unfold SlackBridgeImport. split_and!.
  - intros [Hcommand| ->].
    + by rewrite (bool_decide_eq_false_2 (command = _)).
    + rewrite (bool_decide_eq_false_2 (is_Some None)) by (by intros [? ?]).
      by rewrite orb_true_r.
  - intros -> Hparams ->. by rewrite !bool_decide_eq_true_2.
  - intros -> Hparams [room ->] ->. by rewrite !bool_decide_eq_true_2.
Qed.

(** The run of the command once the room and the user are found. *)
Lemma SlackBridgeImport_started params rid userId s room user :
  is_Some params →
  slack_rooms env !! rid = Some room →
  slack_users env !! userId = Some user →
  let start :=
    mkNotice (randomId env (idsDrawn s)) rid "rocket.cat" (slack_now env)
      (sprintf_i18n env "SlackBridge_start"
         [interpolate (account_username user); interpolate (channel_name room)]
         (account_language user)) in
  ∃ new,
    length new = callbackCount (adaptersRun (slackAdapters env))
    ∧ Forall (importNoticeOf env rid) new
    ∧ SlackBridgeImport env "slackbridge-import" params rid userId s
      = match firstRejection (slackAdapters env) with
        | Some error =>
            (Throw error,
             mkSlackState
               (emitted s ++ [start] ++ new
                ++ [mkNotice (randomId env (S (idsDrawn s) + length new)) rid
                      "rocket.cat" (slack_now env)
                      (sprintf_i18n env "SlackBridge_error"
                         [interpolate (channel_name room); message error]
                         (account_language user))])
               (S (S (idsDrawn s) + length new)))
        | None =>
            (Return tt,
             mkSlackState (emitted s ++ [start] ++ new)
               (S (idsDrawn s) + length new))
        end.
Proof.
  intros Hparams Hroom Huser start. subst start. unfold SlackBridgeImport.
  rewrite !bool_decide_eq_true_2 by done. simpl. rewrite Hroom, Huser.
  unfold st_bind at 1, emitNotice at 1, st_catch.
  match goal with
  | |- context [importAll env ?a ?r ?c ?u ?s0] =>
      destruct (importAll_run r c u a s0) as (new & -> & Hlen & Hall)
  end.
  exists new. split; [done|]. split; [done|].
  destruct (firstRejection (slackAdapters env)) as [error|]; simpl.
  - unfold st_bind, emitNotice, st_throw. simpl. by rewrite <- !app_assoc.
  - by rewrite <- !app_assoc.
Qed.


(** X28. Once the room and the user are found, the command emits the start
    notice, then one notice per callback call of the adapters it gets to,
    in order; it stops at the first adapter that rejects, emits an error
    notice with the message of the rejection and throws the same error
    again, so that the later adapters are never asked. Without a rejection
    it returns after the last adapter. *)
Theorem SlackBridgeImport_run params rid userId s room user :
  is_Some params →
  slack_rooms env !! rid = Some room →
  slack_users env !! userId = Some user →
  ∃ start middle final,
    emitted (snd (SlackBridgeImport env "slackbridge-import" params rid userId s))
    = emitted s ++ [start] ++ middle ++ final
    ∧ notice_msg start
      = sprintf_i18n env "SlackBridge_start"
          [interpolate (account_username user); interpolate (channel_name room)]
          (account_language user)
    ∧ length middle = callbackCount (adaptersRun (slackAdapters env))
    ∧ match firstRejection (slackAdapters env) with
      | Some error =>
          fst (SlackBridgeImport env "slackbridge-import" params rid userId s)
          = Throw error
          ∧ ∃ notice,
              final = [notice]
              ∧ notice_msg notice
                = sprintf_i18n env "SlackBridge_error"
                    [interpolate (channel_name room); message error]
                    (account_language user)
      | None =>
          fst (SlackBridgeImport env "slackbridge-import" params rid userId s)
          = Return tt
          ∧ final = []
      end.
Proof.
  intros Hparams Hroom Huser.
  destruct (SlackBridgeImport_started params rid userId s room user)
    as (new & Hlen & _ & ->); [done..|].
  destruct (firstRejection (slackAdapters env)) as [error|]; simpl.
  - eexists _, new, [_].
    split; [reflexivity|]. split; [reflexivity|]. split; [done|].
    split; [done|]. by eexists.
  - eexists _, new, [].
    split; [by rewrite app_nil_r|]. split; [reflexivity|]. by split.
Qed.

End slackbridge_properties.

(** ** The slack import command on the sample surroundings *)

Local Open Scope string_scope.

(** X26 on a room and a user that do not exist. *)
Lemma SlackBridgeImport_not_started_witness :
  SlackBridgeImport sampleSlackEnv "slackbridge-export" (Some "") "GENERAL" "U1"
    emptySlackState
  = (Return tt, emptySlackState)
  ∧ SlackBridgeImport sampleSlackEnv "slackbridge-import" (Some "") "NOPE" "U1"
      emptySlackState
    = (Throw roomNameError, emptySlackState)
  ∧ fst (SlackBridgeImport sampleSlackEnv "slackbridge-import" (Some "") "GENERAL"
           "U9" emptySlackState)
    = Throw usernameError.
Proof.
  split_and!.
  - apply (SlackBridgeImport_not_started sampleSlackEnv "slackbridge-export"
             (Some "") "GENERAL" "U1" emptySlackState). left. discriminate.
  - apply (SlackBridgeImport_not_started sampleSlackEnv "slackbridge-import"
             (Some "") "NOPE" "U1" emptySlackState); [reflexivity|by eexists|reflexivity].
  - apply (SlackBridgeImport_not_started sampleSlackEnv "slackbridge-import"
             (Some "") "GENERAL" "U9" emptySlackState);
      [reflexivity|by eexists|by eexists|reflexivity].
Defined.

(** X28 on the three sample adapters: the second rejects, the third is
    never asked. *)
Lemma SlackBridgeImport_run_witness :
  is_Some (Some "")
  ∧ slack_rooms sampleSlackEnv !! "GENERAL" = Some (mkChannel (Some "general"))
  ∧ slack_users sampleSlackEnv !! "U1" = Some (mkAccount (Some "agent.one") (Some "en"))
  ∧ fst (SlackBridgeImport sampleSlackEnv "slackbridge-import" (Some "") "GENERAL"
           "U1" emptySlackState)
    = Throw (Error "channel_not_found")
  ∧ length (emitted (snd (SlackBridgeImport sampleSlackEnv "slackbridge-import"
                            (Some "") "GENERAL" "U1" emptySlackState)))
    = 4%nat.
Proof.
  assert (is_Some (Some "")) as Hparams by (by eexists).
  split; [exact Hparams|]. do 2 (split; [reflexivity|]).
  destruct (SlackBridgeImport_run sampleSlackEnv (Some "") "GENERAL" "U1"
              emptySlackState (mkChannel (Some "general"))
              (mkAccount (Some "agent.one") (Some "en")) Hparams eq_refl eq_refl)
    as (start & middle & final & Hemitted & _ & Hlen & Hthrow & notice & -> & _).
  split; [exact Hthrow|].
  rewrite Hemitted, !length_app, Hlen. reflexivity.
Defined.

(** X25 on an input without a valid answer, and on one that ends with
    [DRY]. *)
Lemma startProcess_completes_witness :
  startProcess samplePaths lowerString (sampleScript sampleCheckout ["maybe"; "no"])
  = None
  ∧ ∃ s',
      startProcess samplePaths lowerString
        (sampleScript sampleCheckout ["maybe"; "DRY"])
      = Some (Return tt, s')
      ∧ script_input s' = []
      ∧ script_closed s' = 1%nat.
Proof.
  split.
  - apply (proj1 (startProcess_completes samplePaths lowerString
                    (sampleScript sampleCheckout ["maybe"; "no"]))).
    repeat constructor.
  - destruct (startProcess samplePaths lowerString
                (sampleScript sampleCheckout ["maybe"; "DRY"]))
      as [[o s']|] eqn:Hrun; [|discriminate Hrun].
    destruct (proj2 (startProcess_completes samplePaths lowerString
                       (sampleScript sampleCheckout ["maybe"; "DRY"])) o s' Hrun)
      as (-> & _ & _).
    exists s'. split; [reflexivity|].
    injection Hrun as <-. split; reflexivity.
Defined.
